(** * The trading loop of the Zerodha intraday bot

    A shallow embedding of [zerodha_bot/trading_bot.py]: the two loaders
    ([load_predictions], [load_excluded_stocks]), the journal writer
    ([log_trade]), the order helper ([place_market_order]) and the polling
    loop ([run_trading_loop]) with its entry pass and its exit pass.

    Modelling choices.
    - Prices and the wallet are Python floats in the source; here they are
      exact rationals ([Q]).  Comparisons and the floor division are those of
      the rationals; rounding, infinities and NaN are outside the model.
    - The broker, the clock and the file system are scripted by an
      environment: every interaction with the outside world is answered by the
      script at the index of that interaction, so successive calls may be
      answered differently.
    - Python exceptions are an explicit outcome; [try ... except Exception]
      is [try_except].  Only subclasses of [Exception] are modelled.
    - What the program does to the outside world (orders, journal lines, log
      records, sleeps) is emitted as a chronological list of events. *)

From Stdlib Require Import List String Ascii Bool Arith ZArith QArith Qround Lia.
From Stdlib Require Import Sorted Lqa.
Import ListNotations.

Set Implicit Arguments.

(** ** Python strings: [str.strip] and [str.upper] on ASCII text *)

Module PyStr.

(** [str.isspace] on a single ASCII character. *)
Definition is_space (c : ascii) : bool :=
  let n := nat_of_ascii c in
  ((9 <=? n) && (n <=? 13) || (28 <=? n) && (n <=? 32))%nat.

Fixpoint lstrip_chars (l : list ascii) : list ascii :=
  match l with
  | [] => []
  | c :: r => if is_space c then lstrip_chars r else l
  end.

Definition strip (s : string) : string :=
  string_of_list_ascii
    (rev (lstrip_chars (rev (lstrip_chars (list_ascii_of_string s))))).

Definition upper_char (c : ascii) : ascii :=
  let n := nat_of_ascii c in
  if ((97 <=? n) && (n <=? 122))%nat then ascii_of_nat (n - 32) else c.

Fixpoint upper (s : string) : string :=
  match s with
  | EmptyString => EmptyString
  | String c r => String (upper_char c) (upper r)
  end.

(** Truthiness of a string: non-empty. *)
Definition truthy (s : string) : bool :=
  match s with EmptyString => false | _ => true end.

(** [sorted(set(l))]: insertion into a strictly increasing list. *)
Fixpoint insert_unique (s : string) (l : list string) : list string :=
  match l with
  | [] => [s]
  | x :: r =>
      match String.compare s x with
      | Lt => s :: l
      | Eq => l
      | Gt => x :: insert_unique s r
      end
  end.

Definition sorted_set (l : list string) : list string :=
  fold_right insert_unique [] l.

End PyStr.

(** ** Time of day ([datetime.time]), compared field by field *)

Record time := mk_time {
  hour : nat; minute : nat; second : nat; microsecond : nat }.

Definition time_compare (a b : time) : comparison :=
  match Nat.compare (hour a) (hour b) with
  | Eq =>
      match Nat.compare (minute a) (minute b) with
      | Eq =>
          match Nat.compare (second a) (second b) with
          | Eq => Nat.compare (microsecond a) (microsecond b)
          | c => c
          end
      | c => c
      end
  | c => c
  end.

(** [a <= b] on [datetime.time]. *)
Definition time_leb (a b : time) : bool :=
  match time_compare a b with Gt => false | _ => true end.

Record datetime := mk_datetime { day : Z; tod : time }.

(** ** Data model *)

Definition symbol := string.

Inductive transaction_type := BUY | SELL.

(** Every exception below is a subclass of Python's [Exception]. *)
Inductive exn :=
| KiteException      (* network, token or input error of the broker client *)
| OrderException     (* the broker rejected the order *)
| KeyError
| ValueError
| TypeError
| AttributeError
| OSError.           (* the file system: disk full, permissions, ... *)

Inductive outcome (A : Type) :=
| Returned (a : A)
| Raised (e : exn).
Arguments Raised {A} e.

Inductive order_id :=
| LiveOrder (id : string)
| DryRunOrder (txn : transaction_type) (s : symbol) (epoch : Z).

(** A value of [open_trades]. *)
Record trade_info := mk_trade {
  quantity : Z; buy_price : Q; target : Q; stop : Q }.

(** A line of [logs/trades.jsonl]; the timestamp is cut to the second. *)
Record trade_record := mk_record {
  r_day : Z; r_hour : nat; r_minute : nat; r_second : nat;
  r_symbol : symbol; r_action : transaction_type;
  r_quantity : Z; r_price : Q }.

Inductive level := INFO | WARNING | ERROR.

Inductive log_msg :=
| PredictionsNotFound
| PredictionsUnreadable (e : exn)
| ExcludedUnparseable (e : exn)
| SymbolsToTrade (l : list symbol)
| ExcludedSymbols (l : list symbol)
| StartingLoop
| DryRunNote (txn : transaction_type) (s : symbol) (qty : Z)
| FetchMarginsFailed (e : exn)
| FetchPriceFailed (s : symbol) (e : exn)
| BuyDone (s : symbol) (qty : Z) (price : Q) (id : order_id)
| BuyError (s : symbol) (e : exn)
| ExitFetchPriceFailed (s : symbol) (e : exn)
| SellDone (s : symbol) (qty : Z) (price : Q) (id : order_id)
| SellError (s : symbol) (e : exn)
| MaxCyclesReached (n : nat).

(** What the program does to the outside world. [PlaceOrder] records one call
    of [place_market_order] together with what it gave back. *)
Inductive event :=
| Log (lvl : level) (m : log_msg)
| PlaceOrder (txn : transaction_type) (s : symbol) (qty : Z)
             (dry_run : bool) (r : outcome order_id)
| JournalLine (r : trade_record)
| Sleep (secs : Z).

(** ** Python dict keyed by symbol, in insertion order *)

Definition dict (V : Type) := list (symbol * V).

Fixpoint dict_get {V} (k : symbol) (d : dict V) : option V :=
  match d with
  | [] => None
  | (k', v) :: r => if String.eqb k k' then Some v else dict_get k r
  end.

(** [k in d] *)
Definition dict_mem {V} (k : symbol) (d : dict V) : bool :=
  match dict_get k d with Some _ => true | None => false end.

(** [d[k] = v]: an existing key keeps its place, a new one goes last. *)
Fixpoint dict_set {V} (k : symbol) (v : V) (d : dict V) : dict V :=
  match d with
  | [] => [(k, v)]
  | (k', v') :: r =>
      if String.eqb k k' then (k, v) :: r else (k', v') :: dict_set k v r
  end.

(** [d.pop(k, None)] *)
Fixpoint dict_pop {V} (k : symbol) (d : dict V) : dict V :=
  match d with
  | [] => []
  | (k', v') :: r =>
      if String.eqb k k' then r else (k', v') :: dict_pop k r
  end.

Definition keys {V} (d : dict V) : list symbol := map fst d.

(** [s in excluded_stocks] *)
Definition set_mem (s : symbol) (l : list symbol) : bool :=
  existsb (String.eqb s) l.

(** ** The outside world *)

(** The value under ["net"] in the reply of [kite.margins]. *)
Inductive net_value :=
| NetNull                 (* None *)
| NetNumber (q : Q)
| NetUnconvertible.       (* truthy, and [float] raises on it *)

Inductive margins_reply :=
| MarginsRaise (e : exn)
| MarginsDict (net : option net_value).

(** Lines 134-135 and 175-176 as one interaction: either a price, or the
    exception raised by [kite.ltp], the subscripts or [float]. *)
Inductive quote_reply :=
| QuoteRaise (e : exn)
| QuotePrice (p : Q).

Inductive json_item := JStr (s : string) | JNotStr.

Inductive stocks_field :=
| StocksAbsent
| StocksItems (l : list json_item)
| StocksNotIterable.

Inductive file_reply :=
| FileMissing
| FileUnreadable (e : exn)    (* [open] or [json.load] raised *)
| FileNotObject               (* parsed, but without a [get] method *)
| FileObject (f : stocks_field).

(** The broker, the clock and the journal file, each answering the n-th
    interaction of the program with the outside world. *)
Record gateway := mk_gateway {
  now_at : nat -> datetime;
  epoch_at : nat -> Z;
  margins_at : nat -> margins_reply;
  ltp_at : nat -> symbol -> quote_reply;
  place_order_at : nat -> transaction_type -> symbol -> Z -> outcome order_id;
  append_at : nat -> option exn }.

(** The two JSON files next to the program, as they read at a given moment;
    [excluded.json] is rewritten by the chat interface. *)
Record files := mk_files {
  predictions_at : nat -> file_reply;
  excluded_at : nat -> file_reply }.

(** ** Computations: a counter of interactions, events, exceptions *)

Record run (A : Type) := mk_run {
  result : outcome A;
  clock_after : nat;
  events : list event }.

Definition M (A : Type) : Type := nat -> run A.

Definition ret {A} (a : A) : M A := fun t => mk_run (Returned a) t [].

Definition raise {A} (e : exn) : M A := fun t => mk_run (Raised e) t [].

Definition bind {A B} (m : M A) (k : A -> M B) : M B := fun t =>
  let r := m t in
  match result r with
  | Returned a =>
      let r' := k a (clock_after r) in
      mk_run (result r') (clock_after r') (events r ++ events r')
  | Raised e => mk_run (Raised e) (clock_after r) (events r)
  end.

(** [try: m except Exception as exc: h exc] *)
Definition try_except {A} (m : M A) (h : exn -> M A) : M A := fun t =>
  let r := m t in
  match result r with
  | Returned _ => r
  | Raised e =>
      let r' := h e (clock_after r) in
      mk_run (result r') (clock_after r') (events r ++ events r')
  end.

(** One interaction with the outside world. *)
Definition ask {A} (script : nat -> A) : M A := fun t =>
  mk_run (Returned (script t)) (S t) [].

Definition emit (ev : event) : M unit := fun t =>
  mk_run (Returned tt) t [ev].

Declare Scope py_scope.
Delimit Scope py_scope with py.
Notation "x <- m ;; k" := (bind m (fun x => k))
  (at level 61, m at next level, right associativity) : py_scope.
Notation "m ;; k" := (bind m (fun _ => k))
  (at level 61, right associativity) : py_scope.
Notation "'try' m 'except' e => h" := (try_except m (fun e => h))
  (at level 61, m at next level, e name, right associativity) : py_scope.

(** [for x in l: s = body x s] *)
Fixpoint for_each {A S} (body : A -> S -> M S) (l : list A) (s : S) : M S :=
  match l with
  | [] => ret s
  | x :: r => bind (body x s) (for_each body r)
  end.

(** ** The program *)

Section Engine.

Variable K : gateway.
Variable F : files.
Variable dry_run : bool.
Variable poll_seconds : Z.
Variable max_cycles : option Z.

Local Open Scope py_scope.
Local Open Scope Q_scope.

Definition PROFIT_TARGET : Q := 2 # 100.
Definition STOP_LOSS : Q := 1 # 100.

Definition logger (lvl : level) (m : log_msg) : M unit := emit (Log lvl m).

(** The comprehension shared by both loaders:
    [symbol.strip().upper() for symbol in stocks
       if isinstance(symbol, str) and symbol.strip()] *)
Fixpoint normalized (stocks : list json_item) : list symbol :=
  match stocks with
  | [] => []
  | JStr s :: r =>
      if PyStr.truthy (PyStr.strip s)
      then PyStr.upper (PyStr.strip s) :: normalized r
      else normalized r
  | JNotStr :: r => normalized r
  end.

(** [data.get("stocks", [])] followed by the comprehension. *)
Definition stocks_of (data : file_reply) : M (list symbol) :=
  match data with
  | FileObject StocksAbsent => ret []
  | FileObject (StocksItems l) => ret (normalized l)
  | FileObject StocksNotIterable => raise TypeError
  | FileNotObject => raise AttributeError
  | FileUnreadable e => raise e
  | FileMissing => raise OSError
  end.

Definition load_predictions : M (list symbol) :=
  data <- ask (predictions_at F) ;;
  match data with
  | FileMissing => logger WARNING PredictionsNotFound ;; ret []
  | FileUnreadable e => logger ERROR (PredictionsUnreadable e) ;; ret []
  | _ => l <- stocks_of data ;; ret (PyStr.sorted_set l)
  end.

Definition load_excluded_stocks : M (list symbol) :=
  data <- ask (excluded_at F) ;;
  match data with
  | FileMissing => ret []
  | _ =>
      try (l <- stocks_of data ;; ret (PyStr.sorted_set l))
      except exc => (logger ERROR (ExcludedUnparseable exc) ;; ret [])
  end.

(** The dict [entry] of [log_trade]. *)
Definition entry_of (now : datetime) (s : symbol) (action : transaction_type)
           (qty : Z) (price : Q) : trade_record :=
  mk_record (day now) (hour (tod now)) (minute (tod now)) (second (tod now))
            s action qty price.

Definition log_trade (action : transaction_type) (s : symbol)
           (qty : Z) (price : Q) : M unit :=
  now <- ask (now_at K) ;;
  w <- ask (append_at K) ;;
  match w with
  | Some e => raise e
  | None => emit (JournalLine (entry_of now s action qty price))
  end.

Definition place_market_order (s : symbol) (qty : Z)
           (txn : transaction_type) : M order_id :=
  if dry_run then
    epoch <- ask (epoch_at K) ;;
    logger INFO (DryRunNote txn s qty) ;;
    emit (PlaceOrder txn s qty true (Returned (DryRunOrder txn s epoch))) ;;
    ret (DryRunOrder txn s epoch)
  else
    r <- ask (fun n => place_order_at K n txn s qty) ;;
    emit (PlaceOrder txn s qty false r) ;;
    match r with
    | Returned id => ret id
    | Raised e => raise e
    end.

Definition instrument (s : symbol) : string := ("NSE:" ++ s)%string.

(** [float(kite.ltp([instrument])[instrument]["last_price"])] *)
Definition fetch_last_price (s : symbol) : M Q :=
  r <- ask (fun n => ltp_at K n (instrument s)) ;;
  match r with
  | QuotePrice p => ret p
  | QuoteRaise e => raise e
  end.

(** [float(margins.get("net", 0.0) or 0.0)] *)
Definition fetch_wallet : M Q :=
  r <- ask (margins_at K) ;;
  match r with
  | MarginsRaise e => raise e
  | MarginsDict None => ret 0
  | MarginsDict (Some NetNull) => ret 0
  | MarginsDict (Some (NetNumber q)) => ret (if Qeq_bool q 0 then 0 else q)
  | MarginsDict (Some NetUnconvertible) => raise TypeError
  end.

Definition Qlt_bool (x y : Q) : bool := negb (Qle_bool y x).

Definition book := dict trade_info.

(** Body of the first [for] loop (lines 129-166).  [continue] gives the
    state back as it is.  In the guarded block the two assignments come last,
    so an exception leaves [open_trades] and [wallet] as they were. *)
Definition entry_step (excluded_stocks : list symbol) (s : symbol)
           (st : book * Q) : M (book * Q) :=
  let (open_trades, wallet) := st in
  if set_mem s excluded_stocks || dict_mem s open_trades then ret st
  else
    q <- (try (p <- fetch_last_price s ;; ret (Some p))
          except exc => (logger ERROR (FetchPriceFailed s exc) ;; ret None)) ;;
    match q with
    | None => ret st
    | Some last_price =>
        if Qlt_bool wallet last_price || Qle_bool last_price 0 then ret st
        else
          let qty := Qfloor (wallet / last_price) in
          if (qty <? 1)%Z then ret st
          else
            try (order_id <- place_market_order s qty BUY ;;
                 logger INFO (BuyDone s qty last_price order_id) ;;
                 log_trade BUY s qty last_price ;;
                 ret (dict_set s
                        (mk_trade qty last_price
                           (last_price * (1 + PROFIT_TARGET))
                           (last_price * (1 - STOP_LOSS)))
                        open_trades,
                      wallet - inject_Z qty * last_price))
            except exc => (logger ERROR (BuyError s exc) ;; ret st)
    end.

Definition cutoff : time := mk_time 15 10 0 0.

Definition should_exit (current_time : time) (trade : trade_info)
           (last_price : Q) : bool :=
  Qle_bool (target trade) last_price
  || Qle_bool last_price (stop trade)
  || time_leb cutoff current_time.

(** Body of the second [for] loop (lines 169-198), run on one item of the
    snapshot [list(open_trades.items())]. *)
Definition exit_step (current_time : time) (item : symbol * trade_info)
           (open_trades : book) : M book :=
  let (s, trade) := item in
  q <- (try (p <- fetch_last_price s ;; ret (Some p))
        except exc => (logger ERROR (ExitFetchPriceFailed s exc) ;; ret None)) ;;
  match q with
  | None => ret open_trades
  | Some last_price =>
      if negb (should_exit current_time trade last_price) then ret open_trades
      else
        (try (order_id <- place_market_order s (quantity trade) SELL ;;
              logger INFO (SellDone s (quantity trade) last_price order_id) ;;
              log_trade SELL s (quantity trade) last_price)
         except exc => logger ERROR (SellError s exc)) ;;
        ret (dict_pop s open_trades)
  end.

Definition in_window (t : time) : bool :=
  time_leb (mk_time 9 30 0 0) t && time_leb t (mk_time 15 15 0 0).

Definition entry_pass (symbols_to_trade excluded_stocks : list symbol)
           (st : book * Q) : M (book * Q) :=
  for_each (entry_step excluded_stocks) symbols_to_trade st.

Definition exit_pass (current_time : time) (open_trades : book) : M book :=
  for_each (exit_step current_time) open_trades open_trades.

(** One turn of the [while] loop, up to and including the sleep. *)
Definition run_cycle (symbols_to_trade excluded_stocks : list symbol)
           (open_trades : book) : M book :=
  now <- ask (now_at K) ;;
  if in_window (tod now) then
    wallet <- (try fetch_wallet
               except exc => (logger ERROR (FetchMarginsFailed exc) ;; ret 0)) ;;
    st <- entry_pass symbols_to_trade excluded_stocks (open_trades, wallet) ;;
    open_trades' <- exit_pass (tod now) (fst st) ;;
    emit (Sleep poll_seconds) ;;
    ret open_trades'
  else
    emit (Sleep (Z.max 15 poll_seconds)) ;;
    ret open_trades.

Definition max_reached (cycle_count : nat) : bool :=
  match max_cycles with
  | None => false
  | Some m => (m <=? Z.of_nat cycle_count)%Z
  end.

Inductive loop_end := MaxCyclesEnd | StillRunning.

(** The [while True] loop, cut after [fuel] turns. *)
Fixpoint trading_loop (fuel : nat) (symbols_to_trade excluded_stocks : list symbol)
         (cycle_count : nat) (open_trades : book) : M (loop_end * book) :=
  match fuel with
  | O => ret (StillRunning, open_trades)
  | S fuel' =>
      open_trades' <- run_cycle symbols_to_trade excluded_stocks open_trades ;;
      if max_reached (S cycle_count) then
        logger INFO (MaxCyclesReached (S cycle_count)) ;;
        ret (MaxCyclesEnd, open_trades')
      else
        trading_loop fuel' symbols_to_trade excluded_stocks
                     (S cycle_count) open_trades'
  end.

Definition run_trading_loop (fuel : nat) : M (loop_end * book) :=
  symbols_to_trade <- load_predictions ;;
  excluded_stocks <- load_excluded_stocks ;;
  logger INFO (SymbolsToTrade symbols_to_trade) ;;
  logger INFO (ExcludedSymbols excluded_stocks) ;;
  logger INFO StartingLoop ;;
  trading_loop fuel symbols_to_trade excluded_stocks 0 [].

End Engine.

Unset Implicit Arguments.

(** ** Reading the event list *)

Definition txn_eqb (a b : transaction_type) : bool :=
  match a, b with
  | BUY, BUY | SELL, SELL => true
  | _, _ => false
  end.

(** [ev] is a call of [place_market_order] for [txn] on [s]. *)
Definition is_order (txn : transaction_type) (s : symbol) (ev : event) : bool :=
  match ev with
  | PlaceOrder txn' s' _ _ _ => txn_eqb txn txn' && String.eqb s s'
  | _ => false
  end.

(** [ev] is such a call that gave an order id back. *)
Definition is_accepted (txn : transaction_type) (s : symbol) (ev : event) : bool :=
  match ev with
  | PlaceOrder txn' s' _ _ (Returned _) => txn_eqb txn txn' && String.eqb s s'
  | _ => false
  end.

(** [ev] is a journal line for [txn] on [s]. *)
Definition is_journal (txn : transaction_type) (s : symbol) (ev : event) : bool :=
  match ev with
  | JournalLine r => txn_eqb txn (r_action r) && String.eqb s (r_symbol r)
  | _ => false
  end.

Definition is_any_order (ev : event) : bool :=
  match ev with PlaceOrder _ _ _ _ _ => true | _ => false end.

Definition is_note (ev : event) : bool :=
  match ev with Log _ _ | Sleep _ => true | _ => false end.

Definition placed txn s (evs : list event) : bool := existsb (is_order txn s) evs.
Definition accepted txn s (evs : list event) : bool := existsb (is_accepted txn s) evs.
Definition journaled txn s (evs : list event) : bool := existsb (is_journal txn s) evs.

(** The calls of [place_market_order] among the events, in order. *)
Definition order_calls (evs : list event) : list event := filter is_any_order evs.

(** ** The paths through the two loop bodies *)

(** The position opened by a BUY of [qty] shares at [p] (lines 158-163). *)
Definition position (qty : Z) (p : Q) : trade_info :=
  mk_trade qty p (p * (1 + PROFIT_TARGET)) (p * (1 - STOP_LOSS)).

Section PathsOf.

Variable K : gateway.
Variable dry_run : bool.

(** The BUY attempted for [s] when the wallet is [w] and the quote [p]. *)
Definition buy_call (s : symbol) (w p : Q) (t : nat) : run order_id :=
  place_market_order K dry_run s (Qfloor (w / p)) BUY (S t).

Inductive entry_path (excl : list symbol) (s : symbol) (b : book) (w : Q)
          (t : nat) : run (book * Q) -> Prop :=
| entry_skip :
    set_mem s excl || dict_mem s b = true ->
    entry_path excl s b w t (mk_run (Returned (b, w)) t [])
| entry_no_quote e :
    set_mem s excl || dict_mem s b = false ->
    ltp_at K t (instrument s) = QuoteRaise e ->
    entry_path excl s b w t
      (mk_run (Returned (b, w)) (S t) [Log ERROR (FetchPriceFailed s e)])
| entry_unaffordable p :
    set_mem s excl || dict_mem s b = false ->
    ltp_at K t (instrument s) = QuotePrice p ->
    Qlt_bool w p || Qle_bool p 0 = true ->
    entry_path excl s b w t (mk_run (Returned (b, w)) (S t) [])
| entry_order_raised p e :
    set_mem s excl || dict_mem s b = false ->
    ltp_at K t (instrument s) = QuotePrice p ->
    0 < p -> p <= w ->
    result (buy_call s w p t) = Raised e ->
    entry_path excl s b w t
      (mk_run (Returned (b, w)) (S (S t))
         (events (buy_call s w p t) ++ [Log ERROR (BuyError s e)]))
| entry_journal_raised p id e :
    set_mem s excl || dict_mem s b = false ->
    ltp_at K t (instrument s) = QuotePrice p ->
    0 < p -> p <= w ->
    result (buy_call s w p t) = Returned id ->
    append_at K (S (S (S t))) = Some e ->
    entry_path excl s b w t
      (mk_run (Returned (b, w)) (S (S (S (S t))))
         (events (buy_call s w p t)
          ++ [Log INFO (BuyDone s (Qfloor (w / p)) p id);
              Log ERROR (BuyError s e)]))
| entry_filled p id :
    set_mem s excl || dict_mem s b = false ->
    ltp_at K t (instrument s) = QuotePrice p ->
    0 < p -> p <= w ->
    result (buy_call s w p t) = Returned id ->
    append_at K (S (S (S t))) = None ->
    entry_path excl s b w t
      (mk_run
         (Returned (dict_set s (position (Qfloor (w / p)) p) b,
                    w - inject_Z (Qfloor (w / p)) * p))
         (S (S (S (S t))))
         (events (buy_call s w p t)
          ++ [Log INFO (BuyDone s (Qfloor (w / p)) p id);
              JournalLine (entry_of (now_at K (S (S t))) s BUY
                             (Qfloor (w / p)) p)])).

(** The SELL attempted for an open position. *)
Definition sell_call (s : symbol) (trade : trade_info) (t : nat) : run order_id :=
  place_market_order K dry_run s (quantity trade) SELL (S t).

Inductive exit_path (now : time) (s : symbol) (trade : trade_info) (b : book)
          (t : nat) : run book -> Prop :=
| exit_no_quote e :
    ltp_at K t (instrument s) = QuoteRaise e ->
    exit_path now s trade b t
      (mk_run (Returned b) (S t) [Log ERROR (ExitFetchPriceFailed s e)])
| exit_hold p :
    ltp_at K t (instrument s) = QuotePrice p ->
    should_exit now trade p = false ->
    exit_path now s trade b t (mk_run (Returned b) (S t) [])
| exit_order_raised p e :
    ltp_at K t (instrument s) = QuotePrice p ->
    should_exit now trade p = true ->
    result (sell_call s trade t) = Raised e ->
    exit_path now s trade b t
      (mk_run (Returned (dict_pop s b)) (S (S t))
         (events (sell_call s trade t) ++ [Log ERROR (SellError s e)]))
| exit_journal_raised p id e :
    ltp_at K t (instrument s) = QuotePrice p ->
    should_exit now trade p = true ->
    result (sell_call s trade t) = Returned id ->
    append_at K (S (S (S t))) = Some e ->
    exit_path now s trade b t
      (mk_run (Returned (dict_pop s b)) (S (S (S (S t))))
         (events (sell_call s trade t)
          ++ [Log INFO (SellDone s (quantity trade) p id);
              Log ERROR (SellError s e)]))
| exit_filled p id :
    ltp_at K t (instrument s) = QuotePrice p ->
    should_exit now trade p = true ->
    result (sell_call s trade t) = Returned id ->
    append_at K (S (S (S t))) = None ->
    exit_path now s trade b t
      (mk_run (Returned (dict_pop s b)) (S (S (S (S t))))
         (events (sell_call s trade t)
          ++ [Log INFO (SellDone s (quantity trade) p id);
              JournalLine (entry_of (now_at K (S (S t))) s SELL
                             (quantity trade) p)])).

End PathsOf.

(** ** States of the loop *)

Section States.

Variable K : gateway.
Variable dry_run : bool.
Variable excluded_stocks : list symbol.

(** The book and the events so far, between two turns of either [for] loop. *)
Inductive reachable : book -> list event -> Prop :=
| reach_start : reachable [] []
| reach_entry b tr s w t b' w' :
    reachable b tr ->
    result (entry_step K dry_run excluded_stocks s (b, w) t) = Returned (b', w') ->
    reachable b' (tr ++ events (entry_step K dry_run excluded_stocks s (b, w) t))
| reach_exit b tr now item t b' :
    reachable b tr ->
    result (exit_step K dry_run now item b t) = Returned b' ->
    reachable b' (tr ++ events (exit_step K dry_run now item b t))
| reach_note b tr ev :
    reachable b tr -> is_note ev = true -> reachable b (tr ++ [ev]).

End States.

(** Target and stop of a position are those of its entry price. *)
Definition priced (trade : trade_info) : Prop :=
  target trade = buy_price trade * (1 + PROFIT_TARGET) /\
  stop trade = buy_price trade * (1 - STOP_LOSS).

Definition book_ok (excluded_stocks : list symbol) (b : book)
           (tr : list event) : Prop :=
  NoDup (keys b) /\
  (forall s trade, In (s, trade) b -> priced trade) /\
  (forall s, set_mem s excluded_stocks = true ->
             placed BUY s tr = false /\ dict_mem s b = false).

(** The wallet of a cycle and the log record that goes with it, by the reply
    of [kite.margins]. *)
Definition wallet_of (m : margins_reply) : Q * list event :=
  match m with
  | MarginsRaise e => (0, [Log ERROR (FetchMarginsFailed e)])
  | MarginsDict None => (0, [])
  | MarginsDict (Some NetNull) => (0, [])
  | MarginsDict (Some (NetNumber q)) => (if Qeq_bool q 0 then 0 else q, [])
  | MarginsDict (Some NetUnconvertible) =>
      (0, [Log ERROR (FetchMarginsFailed TypeError)])
  end.

(** ** Scripted worlds used in the examples *)

Local Open Scope string_scope.
Local Open Scope list_scope.

Definition noon : datetime := mk_datetime 0 (mk_time 12 0 0 0).

(** AAA trades at 400 and BBB at 700; nothing else is quoted. *)
Definition quotes (n : nat) (i : string) : quote_reply :=
  if String.eqb i "NSE:AAA" then QuotePrice 400
  else if String.eqb i "NSE:BBB" then QuotePrice 700
  else QuoteRaise KeyError.

(** A broker that accepts everything, a balance of 1000, a journal that can
    be written. *)
Definition calm : gateway :=
  mk_gateway (fun _ => noon) (fun _ => 0%Z)
             (fun _ => MarginsDict (Some (NetNumber 1000)))
             quotes
             (fun _ _ _ _ => Returned (LiveOrder "1"))
             (fun _ => None).

(** The same, with a journal file that cannot be written. *)
Definition disk_full : gateway :=
  mk_gateway (fun _ => noon) (fun _ => 0%Z)
             (fun _ => MarginsDict (Some (NetNumber 1000)))
             quotes
             (fun _ _ _ _ => Returned (LiveOrder "1"))
             (fun _ => Some OSError).

(** The journal cannot be written at the first attempt (the fourth
    interaction) and can be written afterwards. *)
Definition journal_fails_once : gateway :=
  mk_gateway (fun _ => noon) (fun _ => 0%Z)
             (fun _ => MarginsDict (Some (NetNumber 1000)))
             quotes
             (fun _ _ _ _ => Returned (LiveOrder "1"))
             (fun n => if (n <=? 3)%nat then Some OSError else None).

(** AAA has risen to 410 and the broker rejects every order. *)
Definition rejecting : gateway :=
  mk_gateway (fun _ => noon) (fun _ => 0%Z)
             (fun _ => MarginsDict (Some (NetNumber 1000)))
             (fun _ i => if String.eqb i "NSE:AAA" then QuotePrice 410
                         else QuoteRaise KeyError)
             (fun _ _ _ _ => Raised OrderException)
             (fun _ => None).

(** The balance query fails up to the fourth interaction and gives 1000
    afterwards. *)
Definition late_balance : gateway :=
  mk_gateway (fun _ => noon) (fun _ => 0%Z)
             (fun n => if (n <=? 3)%nat then MarginsRaise KiteException
                       else MarginsDict (Some (NetNumber 1000)))
             quotes
             (fun _ _ _ _ => Returned (LiveOrder "1"))
             (fun _ => None).

Definition only_AAA : file_reply := FileObject (StocksItems [JStr "aaa"]).

(** [excluded.json] is empty when the program starts (it is read at the second
    interaction) and lists AAA from then on. *)
Definition excluded_later (n : nat) : file_reply :=
  if (n <=? 1)%nat then FileObject (StocksItems [])
  else FileObject (StocksItems [JStr "AAA"]).

(** ** Further readings of the events *)

(** The gateway [K] with another order entry point. *)
Definition with_place_order
           (po : nat -> transaction_type -> symbol -> Z -> outcome order_id)
           (K : gateway) : gateway :=
  mk_gateway (now_at K) (epoch_at K) (margins_at K) (ltp_at K) po (append_at K).

(** An order call is that of a dry run: flagged, with a mock identifier. *)
Definition dry_event (ev : event) : Prop :=
  match ev with
  | PlaceOrder txn s _ d r =>
      d = true /\ exists epoch, r = Returned (DryRunOrder txn s epoch)
  | _ => True
  end.

(** A sleep lasts the polling interval, or max(15, polling interval). *)
Definition sleep_ok (poll_seconds : Z) (ev : event) : Prop :=
  match ev with
  | Sleep secs => secs = poll_seconds \/ secs = Z.max 15 poll_seconds
  | _ => True
  end.

(** Every journal line of [evs] has, in [evs], an accepted order for the same
    side, symbol and quantity. *)
Definition journal_backed (evs : list event) : Prop :=
  forall r, In (JournalLine r) evs ->
    exists d id,
      In (PlaceOrder (r_action r) (r_symbol r) (r_quantity r) d (Returned id)) evs.

(** A position as the entry pass can open it. *)
Definition sound (trade : trade_info) : Prop :=
  (1 <= quantity trade)%Z /\ 0 < buy_price trade /\
  stop trade < buy_price trade /\ buy_price trade < target trade.

(** What the open positions cost when they were bought. *)
Fixpoint book_cost (b : book) : Q :=
  match b with
  | [] => 0
  | (_, trade) :: r => inject_Z (quantity trade) * buy_price trade + book_cost r
  end.

Definition is_sleep (ev : event) : bool :=
  match ev with Sleep _ => true | _ => false end.

(** The number of turns of the loop in a list of events: each turn ends with
    one sleep. *)
Definition cycles (evs : list event) : nat :=
  List.length (filter is_sleep evs).

(** ** [config.py], [create_kite_client], [deploy_check.py], [main] *)

(** The environment of the process: [os.getenv]. *)
Definition environ := string -> option string.

(** [value is None or not value.strip()] *)
Definition blank (value : option string) : bool :=
  match value with
  | None => true
  | Some v => negb (PyStr.truthy (PyStr.strip v))
  end.

Fixpoint missing_env_vars (env : environ) (keys : list string) : list string :=
  match keys with
  | [] => []
  | key :: r =>
      if blank (env key) then key :: missing_env_vars env r
      else missing_env_vars env r
  end.

(** The client as [create_kite_client] sets it up: the key and the token that
    [config.py] read from the environment. *)
Record kite_client := mk_client {
  api_key : option string; access_token : option string }.

Definition missing_message (missing : list string) : string :=
  ("Missing required environment variables: " ++ String.concat ", " missing)%string.

(** [inl msg] is [raise RuntimeError(msg)]. *)
Definition create_kite_client (env : environ) : string + kite_client :=
  match missing_env_vars env ["KITE_API_KEY"; "KITE_ACCESS_TOKEN"]%string with
  | [] => inr (mk_client (env "KITE_API_KEY"%string)
                         (env "KITE_ACCESS_TOKEN"%string))
  | missing => inl (missing_message missing)
  end.

Definition py_bool (b : bool) : string := if b then "True"%string else "False"%string.

(** [deploy_check.main]: the lines printed and the exit code. *)
Definition deploy_check_main (env : environ) (base_dir : string)
           (logs_exist predictions_exist : bool) : list string * Z :=
  let missing :=
    missing_env_vars env
      ["KITE_API_KEY"; "KITE_ACCESS_TOKEN"; "TELEGRAM_TOKEN"]%string in
  let head :=
    ["Deployment check:";
     "- Base directory: " ++ base_dir;
     "- Logs dir exists: " ++ py_bool logs_exist;
     "- Predictions file exists: " ++ py_bool predictions_exist]%string in
  match missing with
  | [] => (head ++ ["- Env validation: OK"%string], 0%Z)
  | _ => (head ++ [("- Missing required env vars: "
                    ++ String.concat ", " missing)%string], 1%Z)
  end.

(** The parsed command line of the trading bot. *)
Record cli_args := mk_args {
  arg_dry_run : bool; arg_poll_seconds : Z; arg_max_cycles : option Z }.

Inductive main_error :=
| RuntimeError (msg : string)
| Escaped (e : exn).

(** The events of [main]: those of the loop, and the record of
    [logger.exception]. *)
Inductive main_event :=
| Engine (ev : event)
| LogException (err : main_error).

Inductive main_end :=
| MainReturned (r : loop_end * book)
| MainRaised (err : main_error).

(** [main] of [trading_bot.py], after [parse_args]; the gateway [K] answers
    for the broker behind the client.  An exception is logged and raised
    again. *)
Definition main (env : environ) (K : gateway) (F : files) (args : cli_args)
           (fuel : nat) (t : nat) : main_end * nat * list main_event :=
  match create_kite_client env with
  | inl msg =>
      (MainRaised (RuntimeError msg), t, [LogException (RuntimeError msg)])
  | inr _ =>
      let r := run_trading_loop K F (arg_dry_run args)
                 (Z.max 5 (arg_poll_seconds args)) (arg_max_cycles args) fuel t in
      match result r with
      | Returned x => (MainReturned x, clock_after r, map Engine (events r))
      | Raised e =>
          (MainRaised (Escaped e), clock_after r,
           map Engine (events r) ++ [LogException (Escaped e)])
      end
  end.

(** ** The exclusion commands of [telegram_bot.py] *)

(** [str.split()] on ASCII text: the maximal runs without white space. *)
Fixpoint split_from (cur : list ascii) (l : list ascii) : list (list ascii) :=
  match l with
  | [] => match cur with [] => [] | _ => [rev cur] end
  | c :: r =>
      if PyStr.is_space c then
        match cur with
        | [] => split_from [] r
        | _ => rev cur :: split_from [] r
        end
      else split_from (c :: cur) r
  end.

Definition split (text : string) : list string :=
  map string_of_list_ascii (split_from [] (list_ascii_of_string text)).

(** [load_excluded] of the chat interface: any failure gives the empty set. *)
Definition load_excluded (store : file_reply) : list symbol :=
  match store with
  | FileObject (StocksItems items) => PyStr.sorted_set (normalized items)
  | _ => []
  end.

(** [save_excluded]: the new content of [excluded.json], or [None] when the
    file cannot be opened for writing ([OSError]). *)
Definition save_excluded (writable : bool) (excluded : list symbol)
  : option file_reply :=
  if writable
  then Some (FileObject (StocksItems (map JStr (PyStr.sorted_set excluded))))
  else None.

Inductive reply :=
| UsageExclude
| UsageInclude
| AlreadyExcluded (s : symbol)
| NowExcluded (s : symbol)
| NotExcluded (s : symbol)
| NowIncluded (s : symbol).

(** [cmd_exclude]: the file afterwards and the reply sent; no reply when the
    exception of [save_excluded] leaves the handler. *)
Definition cmd_exclude (writable : bool) (text : string) (store : file_reply)
  : file_reply * option reply :=
  match split text with
  | [_; word] =>
      let symbol := PyStr.upper (PyStr.strip word) in
      let excluded := load_excluded store in
      if set_mem symbol excluded then (store, Some (AlreadyExcluded symbol))
      else
        match save_excluded writable (symbol :: excluded) with
        | Some store' => (store', Some (NowExcluded symbol))
        | None => (store, None)
        end
  | _ => (store, Some UsageExclude)
  end.

(** [excluded.remove(symbol)] *)
Definition set_remove (s : symbol) (l : list symbol) : list symbol :=
  filter (fun x => negb (String.eqb x s)) l.

Definition cmd_include (writable : bool) (text : string) (store : file_reply)
  : file_reply * option reply :=
  match split text with
  | [_; word] =>
      let symbol := PyStr.upper (PyStr.strip word) in
      let excluded := load_excluded store in
      if negb (set_mem symbol excluded) then (store, Some (NotExcluded symbol))
      else
        match save_excluded writable (set_remove symbol excluded) with
        | Some store' => (store', Some (NowIncluded symbol))
        | None => (store, None)
        end
  | _ => (store, Some UsageInclude)
  end.

(** ** Order and normal form of symbols *)

(** The order of [sorted] on strings: by character codes. *)
Definition string_lt (a b : string) : Prop := String.compare a b = Lt.

(** [str.rstrip] on a list of characters, as [strip] does it. *)
Definition rstrip_chars (l : list ascii) : list ascii :=
  rev (PyStr.lstrip_chars (rev l)).

(** A symbol as the loaders keep it: nothing to strip, nothing to put in
    upper case, not empty. *)
Definition normal (x : string) : Prop :=
  PyStr.strip x = x /\ PyStr.upper x = x /\ x <> EmptyString.

(** A word: not empty, without white space. *)
Definition solid (w : list ascii) : Prop :=
  w <> [] /\ forallb (fun c => negb (PyStr.is_space c)) w = true.

(** ** The definitions on small inputs *)

Example normalized_sorted :
  PyStr.sorted_set
    (normalized [JStr " tcs "; JStr "infy"; JNotStr; JStr "  "; JStr "TCS"])
  = ["INFY"; "TCS"].
Proof. reflexivity. Qed.

Example window_is_closed_interval :
  in_window (mk_time 9 30 0 0) = true /\
  in_window (mk_time 9 29 59 0) = false /\
  in_window (mk_time 15 15 0 0) = true /\
  in_window (mk_time 15 15 0 1) = false.
Proof. repeat split. Qed.

Example dict_keeps_insertion_order :
  dict_pop "B" (dict_set "A" 3%nat (dict_set "C" 2%nat (dict_set "B" 1%nat
    (dict_set "A" 0%nat []))))
  = [("A", 3%nat); ("C", 2%nat)].
Proof. reflexivity. Qed.

Example excluded_file_that_is_not_an_object :
  load_excluded_stocks (mk_files (fun _ => FileMissing) (fun _ => FileNotObject))
                       0%nat
  = mk_run (Returned []) 1 [Log ERROR (ExcludedUnparseable AttributeError)].
Proof. reflexivity. Qed.

Example dry_run_places_a_mock_order :
  place_market_order calm true "AAA" 2 SELL 7%nat
  = mk_run (Returned (DryRunOrder SELL "AAA" 0)) 8
      [Log INFO (DryRunNote SELL "AAA" 2);
       PlaceOrder SELL "AAA" 2 true (Returned (DryRunOrder SELL "AAA" 0))].
Proof. reflexivity. Qed.

(** ** Rationals *)

Lemma Qlt_bool_iff (x y : Q) : Qlt_bool x y = true <-> x < y.
Proof.
  unfold Qlt_bool. rewrite negb_true_iff. split; intro H.
  - apply Qnot_le_lt. intro L. apply Qle_bool_iff in L. congruence.
  - destruct (Qle_bool y x) eqn:E; [|reflexivity].
    apply Qle_bool_iff in E. exfalso. exact (Qlt_not_le _ _ H E).
Qed.

Lemma Qle_bool_false (x y : Q) : Qle_bool x y = false <-> y < x.
Proof.
  rewrite <- Qlt_bool_iff. unfold Qlt_bool.
  destruct (Qle_bool x y); cbn; intuition congruence.
Qed.

Lemma floor_at_least_one (wallet p : Q) :
  0 < p -> p <= wallet -> (1 <= Qfloor (wallet / p))%Z.
Proof.
  intros Hp Hw. change 1%Z with (Qfloor 1).
  apply Qfloor_resp_le, Qle_shift_div_l; [exact Hp|].
  now rewrite Qmult_1_l.
Qed.

Lemma affordable_iff (wallet p : Q) :
  Qlt_bool wallet p || Qle_bool p 0 = false <-> 0 < p /\ p <= wallet.
Proof.
  rewrite orb_false_iff. unfold Qlt_bool. rewrite negb_false_iff.
  rewrite Qle_bool_iff, Qle_bool_false. tauto.
Qed.

(** ** The dict operations *)

Section Dict.

Variable V : Type.
Implicit Types (d : dict V) (k : symbol) (v : V).

Lemma dict_mem_keys k d : dict_mem k d = true <-> In k (keys d).
Proof.
  unfold dict_mem. induction d as [|[k' v'] r IH]; cbn.
  - split; [discriminate | tauto].
  - destruct (String.eqb_spec k k') as [->|N]; [tauto|].
    rewrite IH. split; [tauto|]. intros [E|I]; [congruence | exact I].
Qed.

Lemma dict_mem_false k d : dict_mem k d = false <-> ~ In k (keys d).
Proof.
  rewrite <- dict_mem_keys. destruct (dict_mem k d); intuition congruence.
Qed.

Lemma keys_dict_set k v d :
  keys (dict_set k v d) = if dict_mem k d then keys d else keys d ++ [k].
Proof.
  unfold dict_mem, keys. induction d as [|[k' v'] r IH]; cbn; [reflexivity|].
  destruct (String.eqb_spec k k') as [->|N]; cbn; [reflexivity|].
  rewrite IH. now destruct (dict_get k r).
Qed.

Lemma in_dict_set k v d kv :
  In kv (dict_set k v d) -> kv = (k, v) \/ In kv d.
Proof.
  induction d as [|[k' v'] r IH]; cbn.
  - intros [E|[]]; auto.
  - destruct (String.eqb k k'); cbn; intros [E|I]; auto.
    destruct (IH I); auto.
Qed.

Lemma in_dict_pop k d kv : In kv (dict_pop k d) -> In kv d.
Proof.
  induction d as [|[k' v'] r IH]; cbn; [tauto|].
  destruct (String.eqb k k'); cbn; [tauto|]. intros [E|I]; auto.
Qed.

Lemma in_keys_dict_pop k d x : In x (keys (dict_pop k d)) -> In x (keys d).
Proof.
  unfold keys. rewrite !in_map_iff. intros [kv [E I]].
  exists kv. split; [exact E | exact (in_dict_pop _ _ _ I)].
Qed.

Lemma NoDup_dict_set k v d : NoDup (keys d) -> NoDup (keys (dict_set k v d)).
Proof.
  intro H. rewrite keys_dict_set. destruct (dict_mem k d) eqn:E; [exact H|].
  apply dict_mem_false in E.
  apply NoDup_app; [exact H | repeat constructor; intros [] |].
  intros x Hx [<-|[]]. contradiction.
Qed.

Lemma NoDup_dict_pop k d : NoDup (keys d) -> NoDup (keys (dict_pop k d)).
Proof.
  induction d as [|[k' v'] r IH]; cbn; [auto|].
  intro H. inversion H as [|? ? Hn Hr]; subst.
  destruct (String.eqb k k'); cbn; [exact Hr|].
  constructor; [|auto]. intro I. apply Hn. exact (in_keys_dict_pop _ _ _ I).
Qed.

Lemma dict_mem_dict_pop k d : NoDup (keys d) -> dict_mem k (dict_pop k d) = false.
Proof.
  intro H. apply dict_mem_false. induction d as [|[k' v'] r IH]; cbn; [tauto|].
  inversion H as [|? ? Hn Hr]; subst.
  destruct (String.eqb_spec k k') as [->|N]; cbn; [exact Hn|].
  intros [E|I]; [congruence | exact (IH Hr I)].
Qed.

Lemma dict_get_dict_set k v d : dict_get k (dict_set k v d) = Some v.
Proof.
  induction d as [|[k' v'] r IH]; cbn; [now rewrite String.eqb_refl|].
  destruct (String.eqb k k') eqn:E; cbn; [now rewrite String.eqb_refl|].
  now rewrite E.
Qed.

End Dict.

(** ** Sequencing *)

Lemma bind_returned A B (m : M A) (k : A -> M B) (t : nat) (a : A) :
  result (m t) = Returned a ->
  bind m k t =
  mk_run (result (k a (clock_after (m t))))
         (clock_after (k a (clock_after (m t))))
         (events (m t) ++ events (k a (clock_after (m t)))).
Proof. unfold bind. now intros ->. Qed.

Lemma bind_ext A B (m m' : M A) (k k' : A -> M B) (t : nat) :
  m t = m' t ->
  (forall a, result (m t) = Returned a ->
             k a (clock_after (m t)) = k' a (clock_after (m t))) ->
  bind m k t = bind m' k' t.
Proof.
  intros Hm Hk. unfold bind. rewrite <- Hm.
  destruct (result (m t)) as [a|e] eqn:R; [|reflexivity].
  now rewrite (Hk a eq_refl).
Qed.

Lemma for_each_cons A S (body : A -> S -> M S) x r (s : S) t :
  for_each body (x :: r) s t = bind (body x s) (for_each body r) t.
Proof. reflexivity. Qed.

(** A loop whose body always returns, returns; what holds of the state and
    of the events before the loop and is kept by every turn holds after it. *)
Lemma for_each_invariant A S (body : A -> S -> M S)
      (I : S -> list event -> Prop) :
  (forall x s t, exists s', result (body x s t) = Returned s') ->
  (forall x s t s' tr, I s tr -> result (body x s t) = Returned s' ->
                       I s' (tr ++ events (body x s t))) ->
  forall l s t tr, I s tr ->
    exists s', result (for_each body l s t) = Returned s' /\
               I s' (tr ++ events (for_each body l s t)).
Proof.
  intros Hret Hstep. induction l as [|x r IH]; intros s t tr Hs.
  - exists s. cbn. rewrite app_nil_r. auto.
  - destruct (Hret x s t) as [s1 E1]. rewrite for_each_cons.
    rewrite (bind_returned _ _ _ _ _ _ E1). cbn [result events].
    destruct (IH s1 (clock_after (body x s t)) _ (Hstep _ _ _ _ _ Hs E1))
      as [s2 [E2 H2]].
    exists s2. split; [exact E2|]. now rewrite app_assoc.
Qed.

(** ** The loop bodies follow their paths *)

Section Paths.

Variable K : gateway.
Variable dry_run : bool.

Ltac unfold_py :=
  unfold bind, try_except, ask, ret, raise, logger, emit;
  cbn [result clock_after events app].

Ltac flatten :=
  rewrite <- ?app_assoc; cbn [app]; rewrite ?app_nil_r.

(** [place_market_order] takes one interaction and leaves exactly one
    [PlaceOrder] event, behind the note of a dry run. *)
Lemma place_market_order_shape s qty txn t :
  clock_after (place_market_order K dry_run s qty txn t) = S t /\
  exists notes, forallb is_note notes = true /\
    events (place_market_order K dry_run s qty txn t) =
    notes ++ [PlaceOrder txn s qty dry_run
                (result (place_market_order K dry_run s qty txn t))].
Proof.
  unfold place_market_order. destruct dry_run; unfold_py.
  - split; [reflexivity|].
    exists [Log INFO (DryRunNote txn s qty)]. split; reflexivity.
  - destruct (place_order_at K t txn s qty);
      (split; [reflexivity|]); exists []; split; reflexivity.
Qed.

(** In dry-run mode the order helper never raises. *)
Lemma place_market_order_dry s qty txn t :
  dry_run = true ->
  result (place_market_order K dry_run s qty txn t)
  = Returned (DryRunOrder txn s (epoch_at K t)).
Proof. intros E. unfold place_market_order. now rewrite E. Qed.

Lemma entry_step_path excl s b w t :
  entry_path K dry_run excl s b w t (entry_step K dry_run excl s (b, w) t).
Proof.
  unfold entry_step.
  destruct (set_mem s excl || dict_mem s b) eqn:E; [now constructor|].
  destruct (ltp_at K t (instrument s)) as [e|p] eqn:Eq.
  { unfold fetch_last_price. unfold_py. rewrite !Eq.
    cbn [result clock_after events app]. now constructor. }
  destruct (Qlt_bool w p || Qle_bool p 0) eqn:Ea.
  { unfold fetch_last_price. unfold_py. rewrite !Eq.
    cbn [result clock_after events app]. rewrite Ea.
    now apply entry_unaffordable with (p := p). }
  pose proof (proj1 (affordable_iff w p) Ea) as [Hp Hw].
  pose proof (floor_at_least_one _ _ Hp Hw) as Hq.
  apply Z.ltb_ge in Hq.
  pose proof (place_market_order_shape s (Qfloor (w / p)) BUY (S t)) as [Hc _].
  pose proof (fun e => @entry_order_raised K dry_run excl s b w t p e E Eq Hp Hw) as P1.
  pose proof (fun id e => @entry_journal_raised K dry_run excl s b w t p id e E Eq Hp Hw)
    as P2.
  pose proof (fun id => @entry_filled K dry_run excl s b w t p id E Eq Hp Hw) as P3.
  unfold buy_call in P1, P2, P3.
  destruct (place_market_order K dry_run s (Qfloor (w / p)) BUY (S t))
    as [ro co eo] eqn:Eo.
  cbn [result clock_after events] in Hc, P1, P2, P3. subst co.
  destruct ro as [id|e].
  - destruct (append_at K (S (S (S t)))) as [e|] eqn:Ej.
    + unfold fetch_last_price, log_trade. unfold_py. rewrite !Eq.
      cbn [result clock_after events app]. rewrite Ea, Hq, !Eo.
      cbn [result clock_after events app]. rewrite !Ej.
      cbn [result clock_after events app]. flatten.
      now apply P2.
    + unfold fetch_last_price, log_trade. unfold_py. rewrite !Eq.
      cbn [result clock_after events app]. rewrite Ea, Hq, !Eo.
      cbn [result clock_after events app]. rewrite !Ej.
      cbn [result clock_after events app]. flatten.
      now apply P3.
  - unfold fetch_last_price, log_trade. unfold_py. rewrite !Eq.
    cbn [result clock_after events app]. rewrite Ea, Hq, !Eo.
    cbn [result clock_after events app]. flatten. now apply P1.
Qed.

Lemma exit_step_path now s trade b t :
  exit_path K dry_run now s trade b t (exit_step K dry_run now (s, trade) b t).
Proof.
  unfold exit_step.
  destruct (ltp_at K t (instrument s)) as [e|p] eqn:Eq.
  { unfold fetch_last_price. unfold_py. rewrite !Eq.
    cbn [result clock_after events app]. now constructor. }
  destruct (should_exit now trade p) eqn:Ex.
  2:{ unfold fetch_last_price. unfold_py. rewrite !Eq.
      cbn [result clock_after events app]. rewrite Ex. cbn [negb].
      now apply exit_hold with (p := p). }
  pose proof (place_market_order_shape s (quantity trade) SELL (S t)) as [Hc _].
  pose proof (@exit_order_raised K dry_run now s trade b t p) as P1.
  pose proof (@exit_journal_raised K dry_run now s trade b t p) as P2.
  pose proof (@exit_filled K dry_run now s trade b t p) as P3.
  unfold sell_call in P1, P2, P3.
  destruct (place_market_order K dry_run s (quantity trade) SELL (S t))
    as [ro co eo] eqn:Eo.
  cbn [result clock_after events] in Hc, P1, P2, P3. subst co.
  destruct ro as [id|e].
  - destruct (append_at K (S (S (S t)))) as [e|] eqn:Ej.
    + unfold fetch_last_price, log_trade. unfold_py. rewrite !Eq.
      cbn [result clock_after events app]. rewrite Ex.
      cbn [result clock_after events app negb]. rewrite !Eo.
      cbn [result clock_after events app]. rewrite !Ej.
      cbn [result clock_after events app]. flatten.
      now apply P2.
    + unfold fetch_last_price, log_trade. unfold_py. rewrite !Eq.
      cbn [result clock_after events app]. rewrite Ex.
      cbn [result clock_after events app negb]. rewrite !Eo.
      cbn [result clock_after events app]. rewrite !Ej.
      cbn [result clock_after events app]. flatten.
      now apply P3.
  - unfold fetch_last_price, log_trade. unfold_py. rewrite !Eq.
    cbn [result clock_after events app]. rewrite Ex.
    cbn [result clock_after events app negb]. rewrite !Eo.
    cbn [result clock_after events app]. flatten.
    now apply P1.
Qed.

End Paths.

(** ** What the loop bodies leave in the event list *)

Lemma existsb_notes (f : event -> bool) (notes l : list event) :
  (forall ev, is_note ev = true -> f ev = false) ->
  forallb is_note notes = true ->
  existsb f (notes ++ l) = existsb f l.
Proof.
  intros Hf. induction notes as [|n r IH]; cbn; [reflexivity|].
  rewrite andb_true_iff. intros [Hn Hr]. now rewrite (Hf _ Hn), IH.
Qed.

Lemma filter_notes (notes l : list event) :
  forallb is_note notes = true ->
  order_calls (notes ++ l) = order_calls l.
Proof.
  unfold order_calls. induction notes as [|n r IH]; cbn; [reflexivity|].
  rewrite andb_true_iff. intros [Hn Hr].
  destruct n; cbn in *; try discriminate; auto.
Qed.

Lemma is_order_note txn s ev : is_note ev = true -> is_order txn s ev = false.
Proof. now destruct ev. Qed.

Lemma is_accepted_note txn s ev : is_note ev = true -> is_accepted txn s ev = false.
Proof. now destruct ev. Qed.

Lemma is_journal_note txn s ev : is_note ev = true -> is_journal txn s ev = false.
Proof. now destruct ev. Qed.

Lemma txn_eqb_eq a b : txn_eqb a b = true <-> a = b.
Proof. destruct a, b; cbn; intuition congruence. Qed.

Lemma is_order_true txn s txn' s' qty d r :
  is_order txn s (PlaceOrder txn' s' qty d r) = true <-> txn = txn' /\ s = s'.
Proof.
  cbn. rewrite andb_true_iff, txn_eqb_eq, String.eqb_eq. tauto.
Qed.

Section Trace.

Variable K : gateway.
Variable dry_run : bool.
Variable excluded_stocks : list symbol.

(** One predicate on events, read over the events of one order call followed
    by [rest]. *)
Lemma existsb_call (f : event -> bool) s qty txn t rest :
  (forall ev, is_note ev = true -> f ev = false) ->
  existsb f (events (place_market_order K dry_run s qty txn t) ++ rest)
  = f (PlaceOrder txn s qty dry_run
         (result (place_market_order K dry_run s qty txn t)))
    || existsb f rest.
Proof.
  intros Hf.
  destruct (place_market_order_shape K dry_run s qty txn t)
    as [_ [notes [Hn ->]]].
  rewrite <- app_assoc. now rewrite (existsb_notes _ _ _ Hf Hn).
Qed.

Lemma order_calls_call s qty txn t rest :
  order_calls (events (place_market_order K dry_run s qty txn t) ++ rest)
  = PlaceOrder txn s qty dry_run
      (result (place_market_order K dry_run s qty txn t))
    :: order_calls rest.
Proof.
  destruct (place_market_order_shape K dry_run s qty txn t)
    as [_ [notes [Hn ->]]].
  rewrite <- app_assoc. now rewrite (filter_notes _ _ Hn).
Qed.

Lemma entry_step_returns excl s st t :
  exists st', result (entry_step K dry_run excl s st t) = Returned st'.
Proof.
  destruct st as [b w].
  destruct (entry_step_path K dry_run excl s b w t); cbn; eauto.
Qed.

Lemma exit_step_returns now item b t :
  exists b', result (exit_step K dry_run now item b t) = Returned b'.
Proof.
  destruct item as [s trade].
  destruct (exit_step_path K dry_run now s trade b t); cbn; eauto.
Qed.

(** An entry step calls the order helper for a BUY of its own symbol only,
    and only when the symbol is neither excluded nor open. *)
Lemma entry_step_orders excl s b w t txn s' :
  placed txn s' (events (entry_step K dry_run excl s (b, w) t)) = true ->
  txn = BUY /\ s' = s /\ set_mem s excl = false /\ dict_mem s b = false.
Proof.
  unfold placed.
  destruct (entry_step_path K dry_run excl s b w t) as [E|e E|p E|p e E|p id e E|p id E];
    cbn [events existsb]; try discriminate;
    try (cbn; discriminate);
    unfold buy_call; rewrite (existsb_call _ _ _ _ _ _ (is_order_note txn s'));
    cbn [existsb is_order]; rewrite !orb_false_r;
    rewrite andb_true_iff, txn_eqb_eq, String.eqb_eq;
    apply orb_false_iff in E; intuition.
Qed.

(** An exit step calls the order helper for a SELL of its own symbol only. *)
Lemma exit_step_orders now s trade b t txn s' :
  placed txn s' (events (exit_step K dry_run now (s, trade) b t)) = true ->
  txn = SELL /\ s' = s.
Proof.
  unfold placed.
  destruct (exit_step_path K dry_run now s trade b t);
    cbn [events existsb]; try discriminate;
    try (cbn; discriminate);
    unfold sell_call; rewrite (existsb_call _ _ _ _ _ _ (is_order_note txn s'));
    cbn [existsb is_order]; rewrite !orb_false_r;
    rewrite andb_true_iff, txn_eqb_eq, String.eqb_eq; intuition.
Qed.

Lemma placed_app txn s l1 l2 :
  placed txn s (l1 ++ l2) = placed txn s l1 || placed txn s l2.
Proof. apply existsb_app. Qed.

Lemma entry_step_book s b w t b' w' :
  result (entry_step K dry_run excluded_stocks s (b, w) t) = Returned (b', w') ->
  (b' = b /\ w' = w) \/
  (exists qty p, set_mem s excluded_stocks = false /\ dict_mem s b = false /\
                 b' = dict_set s (position qty p) b /\
                 w' = w - inject_Z qty * p).
Proof.
  destruct (entry_step_path K dry_run excluded_stocks s b w t) as [E|e E|p E|p e E|p id e E|p id E];
    cbn [result]; intros [= <- <-]; auto.
  right. apply orb_false_iff in E. destruct E. eauto 8.
Qed.

Lemma exit_step_book now s trade b t b' :
  result (exit_step K dry_run now (s, trade) b t) = Returned b' ->
  b' = b \/ b' = dict_pop s b.
Proof.
  destruct (exit_step_path K dry_run now s trade b t);
    cbn [result]; intros [= <-]; auto.
Qed.

Lemma reachable_ok b tr :
  reachable K dry_run excluded_stocks b tr -> book_ok excluded_stocks b tr.
Proof.
  induction 1 as [|b tr s w t b' w' R IH E|b tr now [s trade] t b' R IH E
                  |b tr ev R IH N].
  - split; [constructor|split].
    + intros s trade [].
    + intros s _. split; reflexivity.
  - destruct IH as [Hd [Hp Hx]].
    assert (Hb : forall x, set_mem x excluded_stocks = true ->
                           placed BUY x (tr ++ events (entry_step K dry_run excluded_stocks s (b, w) t)) = false).
    { intros x Sx. rewrite placed_app, (proj1 (Hx x Sx)). cbn [orb].
      destruct (placed BUY x _) eqn:P; [|reflexivity].
      apply entry_step_orders in P. destruct P as [_ [-> [P _]]]. congruence. }
    destruct (entry_step_book _ _ _ _ _ _ E) as [[-> ->]|[qty [p [Sx [Sm [-> ->]]]]]].
    + split; [exact Hd|split; [exact Hp|]].
      intros x Sx'. split; [auto | apply (Hx x Sx')].
    + split; [now apply NoDup_dict_set|split].
      * intros s0 trade I. apply in_dict_set in I. destruct I as [[= -> ->]|I].
        -- split; reflexivity.
        -- eauto.
      * intros x Sx'. split; [auto|].
        apply dict_mem_false. rewrite keys_dict_set, Sm, in_app_iff.
        intros [I|[<-|[]]]; [|congruence].
        apply dict_mem_keys in I. rewrite (proj2 (Hx x Sx')) in I. discriminate.
  - destruct IH as [Hd [Hp Hx]].
    assert (Hb : forall x, set_mem x excluded_stocks = true ->
                           placed BUY x (tr ++ events (exit_step K dry_run now (s, trade) b t)) = false).
    { intros x Sx. rewrite placed_app, (proj1 (Hx x Sx)). cbn [orb].
      destruct (placed BUY x _) eqn:P; [|reflexivity].
      apply exit_step_orders in P. destruct P as [P _]. discriminate. }
    destruct (exit_step_book _ _ _ _ _ _ E) as [->| ->].
    + split; [exact Hd|split; [exact Hp|]].
      intros x Sx'. split; [auto | apply (Hx x Sx')].
    + split; [now apply NoDup_dict_pop|split].
      * intros s0 tr0 I. apply in_dict_pop in I. eauto.
      * intros x Sx'. split; [auto|].
        apply dict_mem_false. intro I. apply in_keys_dict_pop in I.
        apply dict_mem_keys in I. rewrite (proj2 (Hx x Sx')) in I. discriminate.
  - destruct IH as [Hd [Hp Hx]].
    split; [exact Hd|split; [exact Hp|]].
    intros x Sx. split; [|apply (Hx x Sx)].
    rewrite placed_app, (proj1 (Hx x Sx)). cbn.
    now rewrite (is_order_note BUY x _ N).
Qed.

End Trace.

(** ** One cycle and the loop *)

Section Loop.

Variable K : gateway.
Variable dry_run : bool.
Variable poll_seconds : Z.
Variable max_cycles : option Z.

Lemma guarded_wallet t :
  try_except (fetch_wallet K)
             (fun exc => bind (logger ERROR (FetchMarginsFailed exc))
                              (fun _ => ret 0)) t
  = mk_run (Returned (fst (wallet_of (margins_at K t)))) (S t)
           (snd (wallet_of (margins_at K t))).
Proof.
  unfold fetch_wallet, try_except, bind, ask, logger, emit, ret, raise.
  cbn [result clock_after events].
  destruct (margins_at K t) as [e|[[|q|]|]]; reflexivity.
Qed.

Lemma entry_pass_returns syms excl st t :
  exists st', result (entry_pass K dry_run syms excl st t) = Returned st'.
Proof.
  destruct (for_each_invariant _ _ (entry_step K dry_run excl)
              (fun _ _ => True)
              (fun x s t => entry_step_returns K dry_run excl x s t)
              (fun _ _ _ _ _ _ _ => I) syms st t [] I) as [st' [E _]].
  eauto.
Qed.

Lemma exit_pass_returns now items b t :
  exists b', result (for_each (exit_step K dry_run now) items b t) = Returned b'.
Proof.
  destruct (for_each_invariant _ _ (exit_step K dry_run now)
              (fun _ _ => True)
              (fun x s t => exit_step_returns K dry_run now x s t)
              (fun _ _ _ _ _ _ _ => I) items b t [] I) as [b' [E _]].
  eauto.
Qed.

(** A cycle in the trading window: wallet, entry pass, exit pass, sleep. *)
Lemma run_cycle_open syms excl b t st b' :
  in_window (tod (now_at K t)) = true ->
  result (entry_pass K dry_run syms excl
            (b, fst (wallet_of (margins_at K (S t)))) (S (S t))) = Returned st ->
  result (exit_pass K dry_run (tod (now_at K t)) (fst st)
            (clock_after (entry_pass K dry_run syms excl
               (b, fst (wallet_of (margins_at K (S t)))) (S (S t)))))
  = Returned b' ->
  run_cycle K dry_run poll_seconds syms excl b t
  = mk_run (Returned b')
      (clock_after
         (exit_pass K dry_run (tod (now_at K t)) (fst st)
            (clock_after (entry_pass K dry_run syms excl
               (b, fst (wallet_of (margins_at K (S t)))) (S (S t))))))
      (snd (wallet_of (margins_at K (S t)))
       ++ events (entry_pass K dry_run syms excl
                    (b, fst (wallet_of (margins_at K (S t)))) (S (S t)))
       ++ events (exit_pass K dry_run (tod (now_at K t)) (fst st)
                    (clock_after (entry_pass K dry_run syms excl
                       (b, fst (wallet_of (margins_at K (S t)))) (S (S t)))))
       ++ [Sleep poll_seconds]).
Proof.
  intros W E X. unfold run_cycle.
  rewrite (bind_returned _ _ (ask (now_at K)) _ t (now_at K t) eq_refl).
  cbn [ask result clock_after events app]. rewrite W.
  erewrite bind_returned by (rewrite guarded_wallet; reflexivity).
  rewrite !guarded_wallet. cbn [result clock_after events].
  erewrite bind_returned by exact E. cbn [result clock_after events].
  erewrite bind_returned by exact X. cbn [result clock_after events].
  reflexivity.
Qed.

(** A cycle outside the window only sleeps. *)
Lemma run_cycle_closed syms excl b t :
  in_window (tod (now_at K t)) = false ->
  run_cycle K dry_run poll_seconds syms excl b t
  = mk_run (Returned b) (S t) [Sleep (Z.max 15 poll_seconds)].
Proof.
  intros W. unfold run_cycle.
  rewrite (bind_returned _ _ (ask (now_at K)) _ t (now_at K t) eq_refl).
  cbn [ask result clock_after events app]. rewrite W. reflexivity.
Qed.

Lemma reachable_notes excl b tr notes :
  reachable K dry_run excl b tr -> forallb is_note notes = true ->
  reachable K dry_run excl b (tr ++ notes).
Proof.
  intros R. revert tr R. induction notes as [|n r IH]; cbn; intros tr R.
  - now rewrite app_nil_r.
  - rewrite andb_true_iff. intros [Hn Hr].
    change (n :: r) with ([n] ++ r). rewrite app_assoc.
    apply IH; [|exact Hr]. now apply reach_note.
Qed.

Lemma wallet_notes m : forallb is_note (snd (wallet_of m)) = true.
Proof. destruct m as [e|[[|q|]|]]; reflexivity. Qed.

Lemma entry_pass_reachable syms excl b w t tr :
  reachable K dry_run excl b tr ->
  exists st, result (entry_pass K dry_run syms excl (b, w) t) = Returned st /\
             reachable K dry_run excl (fst st)
               (tr ++ events (entry_pass K dry_run syms excl (b, w) t)).
Proof.
  intros R.
  apply (for_each_invariant _ _ (entry_step K dry_run excl)
           (fun st tr => reachable K dry_run excl (fst st) tr)
           (fun x s t => entry_step_returns K dry_run excl x s t)).
  - intros x [b0 w0] t0 [b1 w1] tr0 R0 E0. cbn [fst] in *.
    now apply reach_entry with (w' := w1).
  - exact R.
Qed.

Lemma exit_loop_reachable excl now items b t tr :
  reachable K dry_run excl b tr ->
  exists b', result (for_each (exit_step K dry_run now) items b t) = Returned b' /\
             reachable K dry_run excl b'
               (tr ++ events (for_each (exit_step K dry_run now) items b t)).
Proof.
  intros R.
  apply (for_each_invariant _ _ (exit_step K dry_run now)
           (fun b tr => reachable K dry_run excl b tr)
           (fun x s t => exit_step_returns K dry_run now x s t)).
  - intros x b0 t0 b1 tr0 R0 E0. now apply reach_exit.
  - exact R.
Qed.

(** Every cycle returns, and takes a state of the loop to a state of the loop. *)
Lemma run_cycle_reachable syms excl b t tr :
  reachable K dry_run excl b tr ->
  exists b', result (run_cycle K dry_run poll_seconds syms excl b t) = Returned b' /\
             reachable K dry_run excl b'
               (tr ++ events (run_cycle K dry_run poll_seconds syms excl b t)).
Proof.
  intros R. destruct (in_window (tod (now_at K t))) eqn:W.
  - pose proof (reachable_notes excl b tr _ R (wallet_notes (margins_at K (S t)))) as R1.
    destruct (entry_pass_reachable syms excl b
                (fst (wallet_of (margins_at K (S t)))) (S (S t)) _ R1)
      as [st [E R2]].
    destruct (exit_loop_reachable excl (tod (now_at K t)) (fst st) (fst st)
                (clock_after (entry_pass K dry_run syms excl
                   (b, fst (wallet_of (margins_at K (S t)))) (S (S t)))) _ R2)
      as [b' [X R3]].
    rewrite (run_cycle_open syms excl b t st b' W E X).
    cbn [result events]. exists b'. split; [reflexivity|].
    rewrite !app_assoc. apply reach_note; [|reflexivity].
    rewrite <- !app_assoc. rewrite <- !app_assoc in R3. exact R3.
  - rewrite (run_cycle_closed syms excl b t W). cbn [result events].
    exists b. split; [reflexivity|]. now apply reach_note.
Qed.

Lemma trading_loop_reachable fuel : forall syms excl n b t tr,
  reachable K dry_run excl b tr ->
  exists e b',
    result (trading_loop K dry_run poll_seconds max_cycles fuel syms excl n b t)
    = Returned (e, b') /\
    reachable K dry_run excl b'
      (tr ++ events (trading_loop K dry_run poll_seconds max_cycles fuel
                       syms excl n b t)).
Proof.
  induction fuel as [|fuel IH]; intros syms excl n b t tr R.
  - exists StillRunning, b. cbn. rewrite app_nil_r. auto.
  - destruct (run_cycle_reachable syms excl b t tr R) as [b1 [E1 R1]].
    cbn [trading_loop]. rewrite (bind_returned _ _ _ _ _ _ E1).
    cbn [result events]. destruct (max_reached max_cycles (S n)).
    + exists MaxCyclesEnd, b1. unfold bind, logger, emit, ret.
      cbn [result clock_after events app]. split; [reflexivity|].
      rewrite app_assoc. now apply reach_note.
    + destruct (IH syms excl (S n) b1
                  (clock_after (run_cycle K dry_run poll_seconds syms excl b t))
                  _ R1) as [e [b2 [E2 R2]]].
      exists e, b2. split; [exact E2|]. now rewrite app_assoc.
Qed.

End Loop.

(** ** Failing SELL orders *)

(** C1.  Evaluation of the exit step at a failing SELL: AAA was bought at 400
    (target 408), the quote is 410, the broker rejects the SELL.  The error is
    logged and the position is gone from the book all the same: line 198 runs
    after the guarded block, whatever its outcome.  The second part says so
    for every exit step whose SELL raises. *)
Theorem failed_sell_drops_position :
  exit_step rejecting false (mk_time 12 0 0 0) ("AAA", position 2 400)
            [("AAA", position 2 400)] 0%nat
  = mk_run (Returned []) 2
           [PlaceOrder SELL "AAA" 2 false (Raised OrderException);
            Log ERROR (SellError "AAA" OrderException)]
  /\
  (forall K dry_run now s trade b t p e,
      ltp_at K t (instrument s) = QuotePrice p ->
      should_exit now trade p = true ->
      result (sell_call K dry_run s trade t) = Raised e ->
      exit_step K dry_run now (s, trade) b t
      = mk_run (Returned (dict_pop s b)) (S (S t))
               (events (sell_call K dry_run s trade t)
                ++ [Log ERROR (SellError s e)])).
Proof.
  split; [vm_compute; reflexivity|].
  intros K dry_run now s trade b t p e Hq Hx Ho.
  destruct (exit_step_path K dry_run now s trade b t)
    as [e' Q|p' Q X|p' e' Q X O|p' id' e' Q X O A|p' id' Q X O A];
    congruence.
Qed.

(** ** Journal errors *)

Lemma accepted_call K dry_run txn' s' s qty txn t rest :
  accepted txn' s' (events (place_market_order K dry_run s qty txn t) ++ rest)
  = is_accepted txn' s'
      (PlaceOrder txn s qty dry_run
         (result (place_market_order K dry_run s qty txn t)))
    || accepted txn' s' rest.
Proof. apply existsb_call, is_accepted_note. Qed.

Lemma journaled_call K dry_run txn' s' s qty txn t rest :
  journaled txn' s' (events (place_market_order K dry_run s qty txn t) ++ rest)
  = journaled txn' s' rest.
Proof.
  unfold journaled. now rewrite (existsb_call _ _ _ _ _ _ _ _ (is_journal_note txn' s')).
Qed.

(** C2, as the code has it.  No exception leaves a cycle.  A journal error
    after an accepted BUY is caught by the handler of the guarded block and
    logged at error level; the book and the wallet stay as they were.  A journal
    error after an accepted SELL is caught and logged the same way. *)
Theorem journal_error_logged_not_raised K dry_run poll_seconds syms excl b t :
  (exists b', result (run_cycle K dry_run poll_seconds syms excl b t)
              = Returned b') /\
  (forall s w p id e,
      set_mem s excl || dict_mem s b = false ->
      ltp_at K t (instrument s) = QuotePrice p ->
      0 < p -> p <= w ->
      result (buy_call K dry_run s w p t) = Returned id ->
      append_at K (S (S (S t))) = Some e ->
      entry_step K dry_run excl s (b, w) t
      = mk_run (Returned (b, w)) (S (S (S (S t))))
               (events (buy_call K dry_run s w p t)
                ++ [Log INFO (BuyDone s (Qfloor (w / p)) p id);
                    Log ERROR (BuyError s e)])) /\
  (forall now s trade p id e,
      ltp_at K t (instrument s) = QuotePrice p ->
      should_exit now trade p = true ->
      result (sell_call K dry_run s trade t) = Returned id ->
      append_at K (S (S (S t))) = Some e ->
      exists b',
        result (exit_step K dry_run now (s, trade) b t) = Returned b' /\
        In (Log ERROR (SellError s e))
           (events (exit_step K dry_run now (s, trade) b t))).
Proof.
  split; [|split].
  - destruct (in_window (tod (now_at K t))) eqn:W.
    + destruct (entry_pass_returns K dry_run syms excl
                  (b, fst (wallet_of (margins_at K (S t)))) (S (S t)))
        as [st E].
      destruct (exit_pass_returns K dry_run (tod (now_at K t)) (fst st) (fst st)
                  (clock_after (entry_pass K dry_run syms excl
                     (b, fst (wallet_of (margins_at K (S t)))) (S (S t)))))
        as [b' X].
      rewrite (run_cycle_open K dry_run poll_seconds syms excl b t st b' W E X).
      now exists b'.
    + rewrite (run_cycle_closed K dry_run poll_seconds syms excl b t W).
      now exists b.
  - intros s w p id e Hs Hq Hp Hw Ho Ha.
    destruct (entry_step_path K dry_run excl s b w t)
      as [E|e' E Q|p' E Q A|p' e' E Q _ _ O|p' id' e' E Q _ _ O A|p' id' E Q _ _ O A];
      try congruence.
    assert (p' = p) as -> by congruence.
    rewrite (proj2 (affordable_iff w p) (conj Hp Hw)) in A. discriminate.
  - intros now s trade p id e Hq Hx Ho Ha.
    destruct (exit_step_path K dry_run now s trade b t)
      as [e' Q|p' Q X|p' e' Q X O|p' id' e' Q X O A|p' id' Q X O A];
      try congruence.
    exists (dict_pop s b). split; [reflexivity|].
    assert (e' = e) as -> by congruence.
    cbn [events]. rewrite in_app_iff. right. cbn. auto.
Qed.

(** C2, the claim as stated, at a concrete input.  The journal cannot be
    written; the BUY of AAA is accepted, the [OSError] of the append is caught
    and logged as a BUY error, and the cycle goes on to BBB and returns. *)
Lemma journal_error_swallowed :
  run_cycle disk_full false 30 ["AAA"; "BBB"] [] [] 0%nat
  = mk_run (Returned []) 10
      [PlaceOrder BUY "AAA" 2 false (Returned (LiveOrder "1"));
       Log INFO (BuyDone "AAA" 2 400 (LiveOrder "1"));
       Log ERROR (BuyError "AAA" OSError);
       PlaceOrder BUY "BBB" 1 false (Returned (LiveOrder "1"));
       Log INFO (BuyDone "BBB" 1 700 (LiveOrder "1"));
       Log ERROR (BuyError "BBB" OSError);
       Sleep 30].
Proof. vm_compute. reflexivity. Qed.

(** ** The exclusion set *)

Lemma load_predictions_clock F t : clock_after (load_predictions F t) = S t.
Proof.
  unfold load_predictions, stocks_of, bind, ask, logger, emit, ret, raise.
  cbn [result clock_after events].
  destruct (predictions_at F t) as [|e| |[|l|]]; reflexivity.
Qed.

(** What [load_excluded_stocks] gives depends on the file as it reads at the
    moment of the call, and on nothing else. *)
Lemma load_excluded_stocks_at P E E' t :
  E t = E' t ->
  load_excluded_stocks (mk_files P E) t = load_excluded_stocks (mk_files P E') t.
Proof.
  intros H. unfold load_excluded_stocks, bind, ask.
  cbn [result clock_after events excluded_at]. now rewrite H.
Qed.

(** C3, as the code has it.  [excluded.json] is read once, before the first
    cycle, at the interaction that follows the reading of the predictions; the
    set read then is the one handed to every cycle.  Two histories of the file
    that agree at that moment give the same run, however they differ later. *)
Theorem exclusions_read_once_at_start K P E dry_run poll_seconds max_cycles
        fuel t :
  (forall E', E (S t) = E' (S t) ->
     run_trading_loop K (mk_files P E) dry_run poll_seconds max_cycles fuel t
     = run_trading_loop K (mk_files P E') dry_run poll_seconds max_cycles fuel t)
  /\
  (forall syms excl,
     result (load_predictions (mk_files P E) t) = Returned syms ->
     result (load_excluded_stocks (mk_files P E) (S t)) = Returned excl ->
     result (run_trading_loop K (mk_files P E) dry_run poll_seconds max_cycles
               fuel t)
     = result (trading_loop K dry_run poll_seconds max_cycles fuel syms excl
                 0 [] (clock_after (load_excluded_stocks (mk_files P E) (S t))))).
Proof.
  split.
  - intros E' H. unfold run_trading_loop.
    apply bind_ext; [reflexivity|]. intros syms _.
    rewrite load_predictions_clock.
    apply bind_ext; [exact (load_excluded_stocks_at P E E' (S t) H)|].
    reflexivity.
  - intros syms excl Hs He. unfold run_trading_loop.
    rewrite (bind_returned _ _ _ _ _ _ Hs). cbn [result].
    rewrite load_predictions_clock.
    rewrite (bind_returned _ _ _ _ _ _ He). cbn [result].
    unfold bind, logger, emit. cbn [result clock_after events].
    now destruct (result (trading_loop _ _ _ _ _ _ _ _ _ _)).
Qed.

(** C3, the claim as stated, at a concrete input.  The exclusion file lists
    AAA from the third interaction on, so a read at the start of the first
    cycle (interaction 2) or of the second (interaction 5) gives AAA; the
    balance query fails in the first cycle; in the second cycle AAA is bought. *)
Lemma exclusion_added_after_start_ignored :
  result (load_excluded_stocks (mk_files (fun _ => only_AAA) excluded_later) 2%nat)
  = Returned ["AAA"] /\
  result (load_excluded_stocks (mk_files (fun _ => only_AAA) excluded_later) 5%nat)
  = Returned ["AAA"] /\
  run_trading_loop late_balance (mk_files (fun _ => only_AAA) excluded_later)
                   false 30 None 1 0%nat
  = mk_run (Returned (StillRunning, [])) 5
      [Log INFO (SymbolsToTrade ["AAA"]); Log INFO (ExcludedSymbols []);
       Log INFO StartingLoop;
       Log ERROR (FetchMarginsFailed KiteException); Sleep 30] /\
  run_trading_loop late_balance (mk_files (fun _ => only_AAA) excluded_later)
                   false 30 None 2 0%nat
  = mk_run (Returned (StillRunning, [("AAA", position 2 400)])) 12
      [Log INFO (SymbolsToTrade ["AAA"]); Log INFO (ExcludedSymbols []);
       Log INFO StartingLoop;
       Log ERROR (FetchMarginsFailed KiteException); Sleep 30;
       PlaceOrder BUY "AAA" 2 false (Returned (LiveOrder "1"));
       Log INFO (BuyDone "AAA" 2 400 (LiveOrder "1"));
       JournalLine (entry_of noon "AAA" BUY 2 400);
       Sleep 30].
Proof. repeat split; vm_compute; reflexivity. Qed.

(** ** Opening a position *)

Lemma accepted_self s qty d id : is_accepted BUY s (PlaceOrder BUY s qty d (Returned id)) = true.
Proof. cbn. apply String.eqb_refl. Qed.

(** C4, as the code has it.  An entry step always returns.  It opens the
    position, and takes its cost from the wallet, when the BUY was accepted and
    its journal line was written; in every other case (skipped symbol, failed
    quote, rejected BUY, accepted BUY whose journal line could not be written)
    the book and the wallet are left as they were. *)
Theorem position_iff_buy_accepted_and_journaled K dry_run excl s b w t :
  exists b' w',
    result (entry_step K dry_run excl s (b, w) t) = Returned (b', w') /\
    (accepted BUY s (events (entry_step K dry_run excl s (b, w) t))
     && journaled BUY s (events (entry_step K dry_run excl s (b, w) t)) = true ->
     dict_mem s b = false /\
     exists qty p, b' = dict_set s (position qty p) b /\
                   dict_get s b' = Some (position qty p) /\
                   w' = w - inject_Z qty * p) /\
    (accepted BUY s (events (entry_step K dry_run excl s (b, w) t))
     && journaled BUY s (events (entry_step K dry_run excl s (b, w) t)) = false ->
     b' = b /\ w' = w).
Proof.
  destruct (entry_step_path K dry_run excl s b w t)
    as [E|e E Q|p E Q A|p e E Q _ _ O|p id e E Q _ _ O A|p id E Q _ _ O A];
    cbn [result events]; eexists; eexists; (split; [reflexivity|]).
  1-3: split; [cbn; discriminate | auto].
  - unfold buy_call in *. rewrite accepted_call, journaled_call, O.
    cbn. split; [discriminate | auto].
  - unfold buy_call in *. rewrite accepted_call, journaled_call, O.
    cbn. rewrite andb_false_r. split; [discriminate | auto].
  - unfold buy_call in *. rewrite accepted_call, journaled_call, O.
    rewrite accepted_self. cbn. rewrite String.eqb_refl.
    split; [|discriminate]. intros _.
    apply orb_false_iff in E. destruct E as [_ E]. split; [exact E|].
    exists (Qfloor (w / p)), p. split; [reflexivity|].
    split; [apply dict_get_dict_set | reflexivity].
Qed.

(** C4, the claim as stated, at a concrete input.  The BUY of AAA is accepted
    by the broker, the journal cannot be written, and no position is opened. *)
Lemma accepted_buy_without_position :
  entry_step disk_full false [] "AAA" ([], 1000) 0%nat
  = mk_run (Returned ([], 1000)) 4
      [PlaceOrder BUY "AAA" 2 false (Returned (LiveOrder "1"));
       Log INFO (BuyDone "AAA" 2 400 (LiveOrder "1"));
       Log ERROR (BuyError "AAA" OSError)].
Proof. vm_compute. reflexivity. Qed.

(** ** The exit rule *)





(** ** Sizing and capital *)

Lemma Qfloor_is_floor (x : Q) :
  inject_Z (Qfloor x) <= x /\ x < inject_Z (Qfloor x + 1).
Proof. split; [apply Qfloor_le | apply Qlt_floor]. Qed.

(** C7.  A candidate that is neither excluded nor open, whose quote [p] was
    fetched, with [0 < p <= wallet]: the quantity is the floor of
    [wallet / p], it is at least 1, and the entry step calls the order helper
    once, for a BUY of that quantity. *)
Theorem buy_quantity_is_floor K dry_run excl s (b : book) wallet p t :
  set_mem s excl || dict_mem s b = false ->
  ltp_at K t (instrument s) = QuotePrice p ->
  0 < p -> p <= wallet ->
  (inject_Z (Qfloor (wallet / p)) <= wallet / p
   /\ wallet / p < inject_Z (Qfloor (wallet / p) + 1)) /\
  (1 <= Qfloor (wallet / p))%Z /\
  order_calls (events (entry_step K dry_run excl s (b, wallet) t))
  = [PlaceOrder BUY s (Qfloor (wallet / p)) dry_run
       (result (place_market_order K dry_run s (Qfloor (wallet / p)) BUY (S t)))].
Proof.
  intros Hs Hq Hp Hw.
  split; [apply Qfloor_is_floor|].
  split; [now apply floor_at_least_one|].
  destruct (entry_step_path K dry_run excl s b wallet t)
    as [E|e E Q|p' E Q A|p' e E Q _ _ O|p' id e E Q _ _ O A|p' id E Q _ _ O A];
    try congruence;
    assert (p' = p) as -> by congruence.
  - rewrite (proj2 (affordable_iff wallet p) (conj Hp Hw)) in A. discriminate.
  - cbn [events]. unfold buy_call. now rewrite order_calls_call.
  - cbn [events]. unfold buy_call. now rewrite order_calls_call.
  - cbn [events]. unfold buy_call. now rewrite order_calls_call.
Qed.

Lemma buy_quantity_is_floor_witness :
  (inject_Z (Qfloor (1000 / 400)) <= 1000 / 400
   /\ 1000 / 400 < inject_Z (Qfloor (1000 / 400) + 1)) /\
  (1 <= Qfloor (1000 / 400))%Z /\
  order_calls (events (entry_step calm false [] "AAA" ([], 1000) 0%nat))
  = [PlaceOrder BUY "AAA" (Qfloor (1000 / 400)) false
       (result (place_market_order calm false "AAA" (Qfloor (1000 / 400)) BUY 1%nat))].
Proof.
  apply (buy_quantity_is_floor calm false [] "AAA" [] 1000 400 0%nat).
  - reflexivity.
  - reflexivity.
  - reflexivity.
  - unfold Qle. cbn. lia.
Defined.

(** C6, as the code has it.  First part: whenever an entry step records a BUY
    fill for its symbol (the order was accepted and its journal line written),
    the wallet it hands on is the wallet it received less quantity times last
    price of the position it opened, and the rest of the candidates is
    evaluated from that book and that wallet.  Second part: the run of the
    entry pass on AAA at 400 and BBB at 700 with a wallet of 1000, with a
    journal that can be written. *)
Theorem capital_is_consumed_in_sequence :
  (forall K dry_run excl s rest b w t b1 w1,
      result (entry_step K dry_run excl s (b, w) t) = Returned (b1, w1) ->
      (journaled BUY s (events (entry_step K dry_run excl s (b, w) t)) = true ->
       exists trade,
         dict_get s b1 = Some trade /\
         quantity trade = Qfloor (w / buy_price trade) /\
         w1 = w - inject_Z (quantity trade) * buy_price trade) /\
      result (entry_pass K dry_run (s :: rest) excl (b, w) t)
      = result (entry_pass K dry_run rest excl (b1, w1)
                  (clock_after (entry_step K dry_run excl s (b, w) t))) /\
      events (entry_pass K dry_run (s :: rest) excl (b, w) t)
      = events (entry_step K dry_run excl s (b, w) t)
        ++ events (entry_pass K dry_run rest excl (b1, w1)
                     (clock_after (entry_step K dry_run excl s (b, w) t))))
  /\
  (Qfloor (1000 / 400) = 2%Z /\
   1000 - inject_Z 2 * 400 = 200 /\
   200 < 700 /\
   entry_step calm false [] "AAA" ([], 1000) 0%nat
   = mk_run (Returned ([("AAA", position 2 400)], 200)) 4
       [PlaceOrder BUY "AAA" 2 false (Returned (LiveOrder "1"));
        Log INFO (BuyDone "AAA" 2 400 (LiveOrder "1"));
        JournalLine (entry_of noon "AAA" BUY 2 400)] /\
   entry_step calm false [] "BBB" ([("AAA", position 2 400)], 200) 4%nat
   = mk_run (Returned ([("AAA", position 2 400)], 200)) 5 [] /\
   entry_pass calm false ["AAA"; "BBB"] [] ([], 1000) 0%nat
   = mk_run (Returned ([("AAA", position 2 400)], 200)) 5
       [PlaceOrder BUY "AAA" 2 false (Returned (LiveOrder "1"));
        Log INFO (BuyDone "AAA" 2 400 (LiveOrder "1"));
        JournalLine (entry_of noon "AAA" BUY 2 400)]).
Proof.
  split.
  - intros K dry_run excl s rest b w t b1 w1 E. split; [|split].
    + revert E.
      destruct (entry_step_path K dry_run excl s b w t)
        as [E|e E Q|p E Q A|p e E Q _ _ O|p id e E Q _ _ O A|p id E Q _ _ O A];
        cbn [result events]; intros [= <- <-];
        try (cbn; discriminate);
        unfold buy_call; rewrite journaled_call; try (cbn; discriminate).
      intros _. exists (position (Qfloor (w / p)) p).
      split; [apply dict_get_dict_set | split; reflexivity].
    + unfold entry_pass. rewrite for_each_cons.
      now rewrite (bind_returned _ _ _ _ _ _ E).
    + unfold entry_pass. rewrite for_each_cons.
      now rewrite (bind_returned _ _ _ _ _ _ E).
  - repeat split; vm_compute; reflexivity.
Qed.

(** C6, the claim as stated, at a concrete input.  Wallet 1000, AAA at 400,
    BBB at 700.  The BUY of 2 AAA is accepted, its journal line cannot be
    written, and the wallet handed on is still 1000: in the same pass a BUY of
    1 BBB is placed and accepted, and its cost is taken from 1000. *)
Lemma accepted_buy_keeps_wallet :
  entry_step journal_fails_once false [] "AAA" ([], 1000) 0%nat
  = mk_run (Returned ([], 1000)) 4
      [PlaceOrder BUY "AAA" 2 false (Returned (LiveOrder "1"));
       Log INFO (BuyDone "AAA" 2 400 (LiveOrder "1"));
       Log ERROR (BuyError "AAA" OSError)] /\
  entry_pass journal_fails_once false ["AAA"; "BBB"] [] ([], 1000) 0%nat
  = mk_run (Returned ([("BBB", position 1 700)], 300)) 8
      [PlaceOrder BUY "AAA" 2 false (Returned (LiveOrder "1"));
       Log INFO (BuyDone "AAA" 2 400 (LiveOrder "1"));
       Log ERROR (BuyError "AAA" OSError);
       PlaceOrder BUY "BBB" 1 false (Returned (LiveOrder "1"));
       Log INFO (BuyDone "BBB" 1 700 (LiveOrder "1"));
       JournalLine (entry_of noon "BBB" BUY 1 700)].
Proof. split; vm_compute; reflexivity. Qed.

(** ** Exclusion and re-entry *)

(** C8.  For a symbol of the exclusion set of the engine: in every state of
    the loop no BUY has been placed for it and the book holds no position for
    it; and over any number of turns of the loop, whatever the predictions, the
    balance and the quotes, the events hold no BUY for it and the final book no
    position for it. *)
Theorem excluded_symbol_never_entered K dry_run poll_seconds max_cycles excl s :
  set_mem s excl = true ->
  (forall b tr,
      reachable K dry_run excl b tr ->
      placed BUY s tr = false /\ dict_mem s b = false) /\
  (forall fuel syms n t,
      placed BUY s
        (events (trading_loop K dry_run poll_seconds max_cycles fuel syms excl
                   n [] t)) = false /\
      forall e b,
        result (trading_loop K dry_run poll_seconds max_cycles fuel syms excl
                  n [] t) = Returned (e, b) ->
        dict_mem s b = false).
Proof.
  intros Hs. split.
  - intros b tr R. destruct (reachable_ok K dry_run excl b tr R) as [_ [_ H]].
    exact (H s Hs).
  - intros fuel syms n t.
    destruct (trading_loop_reachable K dry_run poll_seconds max_cycles fuel
                syms excl n [] t [] (reach_start K dry_run excl))
      as [e [b [E R]]].
    destruct (reachable_ok K dry_run excl b _ R) as [_ [_ H]].
    destruct (H s Hs) as [H1 H2]. split; [exact H1|].
    intros e' b' E'. rewrite E in E'. now injection E' as <- <-.
Qed.

Lemma excluded_symbol_never_entered_witness :
  (forall b tr,
      reachable calm false ["AAA"] b tr ->
      placed BUY "AAA" tr = false /\ dict_mem "AAA" b = false) /\
  (forall fuel syms n t,
      placed BUY "AAA"
        (events (trading_loop calm false 30 None fuel syms ["AAA"] n [] t))
      = false /\
      forall e b,
        result (trading_loop calm false 30 None fuel syms ["AAA"] n [] t)
        = Returned (e, b) ->
        dict_mem "AAA" b = false).
Proof.
  apply (excluded_symbol_never_entered calm false 30 None ["AAA"] "AAA").
  reflexivity.
Defined.

(** C9.  In every state of the loop the keys of the book are pairwise
    distinct, and an entry step for a symbol that has an open position gives
    the book and the wallet back as they are, without any interaction and
    without any event; the book at the end of any number of turns of the loop
    has pairwise distinct keys as well. *)
Theorem one_position_per_symbol K dry_run poll_seconds max_cycles excl b tr :
  reachable K dry_run excl b tr ->
  NoDup (keys b) /\
  (forall s w t,
      dict_mem s b = true ->
      entry_step K dry_run excl s (b, w) t = mk_run (Returned (b, w)) t []) /\
  (forall fuel syms n t e b',
      result (trading_loop K dry_run poll_seconds max_cycles fuel syms excl
                n b t) = Returned (e, b') ->
      NoDup (keys b')).
Proof.
  intros R. split; [|split].
  - now destruct (reachable_ok K dry_run excl b tr R).
  - intros s w t Hm. unfold entry_step. rewrite Hm, orb_true_r. reflexivity.
  - intros fuel syms n t e b' E.
    destruct (trading_loop_reachable K dry_run poll_seconds max_cycles fuel
                syms excl n b t tr R) as [e1 [b1 [E1 R1]]].
    rewrite E in E1. injection E1 as <- <-.
    now destruct (reachable_ok K dry_run excl b' _ R1).
Qed.

Lemma one_position_per_symbol_witness :
  NoDup (keys [("AAA", position 2 400)]) /\
  (forall s w t,
      dict_mem s [("AAA", position 2 400)] = true ->
      entry_step calm false [] s ([("AAA", position 2 400)], w) t
      = mk_run (Returned ([("AAA", position 2 400)], w)) t []) /\
  (forall fuel syms n t e b',
      result (trading_loop calm false 30 None fuel syms [] n
                [("AAA", position 2 400)] t) = Returned (e, b') ->
      NoDup (keys b')).
Proof.
  apply (one_position_per_symbol calm false 30 None []
           [("AAA", position 2 400)]
           ([] ++ events (entry_step calm false [] "AAA" ([], 1000) 0%nat))).
  apply (reach_entry calm false [] [] [] "AAA" 1000 0%nat
           [("AAA", position 2 400)] 200).
  - apply reach_start.
  - vm_compute. reflexivity.
Defined.

(** ** A failed balance query *)






(** * The loaders *)

(** ** Order on strings *)

Lemma ascii_compare_refl c : Ascii.compare c c = Eq.
Proof. unfold Ascii.compare. apply N.compare_refl. Qed.

Lemma ascii_compare_trans a b c :
  Ascii.compare a b = Lt -> Ascii.compare b c = Lt -> Ascii.compare a c = Lt.
Proof.
  unfold Ascii.compare. rewrite !N.compare_lt_iff. apply N.lt_trans.
Qed.

Lemma string_compare_refl s : String.compare s s = Eq.
Proof.
  induction s as [|c r IH]; cbn; [reflexivity|].
  now rewrite ascii_compare_refl.
Qed.

Lemma string_lt_irrefl s : ~ string_lt s s.
Proof. unfold string_lt. rewrite string_compare_refl. discriminate. Qed.

Lemma string_lt_trans a : forall b c,
  string_lt a b -> string_lt b c -> string_lt a c.
Proof.
  unfold string_lt.
  induction a as [|x xs IH]; intros [|y ys] [|z zs]; cbn; try congruence.
  destruct (Ascii.compare x y) eqn:Hxy; try discriminate;
    destruct (Ascii.compare y z) eqn:Hyz; try discriminate; intros H1 H2.
  - apply Ascii.compare_eq_iff in Hxy, Hyz. subst.
    rewrite ascii_compare_refl. eauto.
  - apply Ascii.compare_eq_iff in Hxy. subst. now rewrite Hyz.
  - apply Ascii.compare_eq_iff in Hyz. subst. now rewrite Hxy.
  - now rewrite (ascii_compare_trans _ _ _ Hxy Hyz).
Qed.

Lemma string_gt_lt a b : String.compare a b = Gt -> string_lt b a.
Proof.
  unfold string_lt. rewrite (String.compare_antisym a b).
  now destruct (String.compare b a).
Qed.

(** ** [sorted(set(...))] *)

Lemma in_insert_unique x s l :
  In x (PyStr.insert_unique s l) <-> x = s \/ In x l.
Proof.
  induction l as [|y r IH]; cbn; [intuition|].
  destruct (String.compare s y) eqn:C; cbn.
  - apply String.compare_eq_iff in C. subst. intuition.
  - intuition.
  - rewrite IH. intuition.
Qed.

Lemma in_sorted_set x l : In x (PyStr.sorted_set l) <-> In x l.
Proof.
  induction l as [|y r IH]; cbn; [tauto|].
  rewrite in_insert_unique, IH. intuition.
Qed.

Lemma insert_unique_sorted s l :
  Sorted string_lt l -> Sorted string_lt (PyStr.insert_unique s l).
Proof.
  induction l as [|y r IH]; cbn; intros H; [repeat constructor|].
  inversion H as [|? ? Hr Hh]; subst.
  destruct (String.compare s y) eqn:C.
  - exact H.
  - constructor; [exact H | constructor; exact C].
  - constructor; [now apply IH|].
    destruct r as [|z r']; cbn.
    + constructor. now apply string_gt_lt.
    + inversion Hh; subst.
      destruct (String.compare s z); constructor;
        auto using string_gt_lt.
Qed.

Lemma sorted_set_sorted l : Sorted string_lt (PyStr.sorted_set l).
Proof.
  induction l as [|y r IH]; cbn; [constructor | now apply insert_unique_sorted].
Qed.

Lemma sorted_NoDup l : Sorted string_lt l -> NoDup l.
Proof.
  intros H. apply Sorted_StronglySorted in H; [|exact string_lt_trans].
  induction H as [|x r Hs IH Hf]; constructor; [|exact IH].
  intro I. rewrite Forall_forall in Hf.
  exact (string_lt_irrefl x (Hf x I)).
Qed.

(** A strictly increasing list is its own [sorted(set(...))]. *)
Lemma insert_unique_below s l :
  Forall (string_lt s) l -> PyStr.insert_unique s l = s :: l.
Proof.
  intros H. destruct l as [|y r]; cbn; [reflexivity|].
  inversion H as [|? ? C _]; subst. unfold string_lt in C. now rewrite C.
Qed.

Lemma sorted_set_fixed l : Sorted string_lt l -> PyStr.sorted_set l = l.
Proof.
  intros H. apply Sorted_StronglySorted in H; [|exact string_lt_trans].
  induction H as [|x r Hs IH Hf]; [reflexivity|].
  change (PyStr.sorted_set (x :: r))
    with (PyStr.insert_unique x (PyStr.sorted_set r)).
  rewrite IH. now apply insert_unique_below.
Qed.

(** ** [strip] and [upper] *)

Lemma upper_char_idem c : PyStr.upper_char (PyStr.upper_char c) = PyStr.upper_char c.
Proof. destruct c as [[] [] [] [] [] [] [] []]; reflexivity. Qed.

Lemma is_space_upper_char c : PyStr.is_space (PyStr.upper_char c) = PyStr.is_space c.
Proof. destruct c as [[] [] [] [] [] [] [] []]; reflexivity. Qed.

Lemma upper_idem s : PyStr.upper (PyStr.upper s) = PyStr.upper s.
Proof.
  induction s as [|c r IH]; cbn; [reflexivity|].
  now rewrite upper_char_idem, IH.
Qed.

Lemma upper_chars s :
  list_ascii_of_string (PyStr.upper s)
  = map PyStr.upper_char (list_ascii_of_string s).
Proof. induction s as [|c r IH]; cbn; [reflexivity | now rewrite IH]. Qed.

Lemma upper_of_chars l :
  PyStr.upper (string_of_list_ascii l)
  = string_of_list_ascii (map PyStr.upper_char l).
Proof. induction l as [|c r IH]; cbn; [reflexivity | now rewrite IH]. Qed.

Lemma lstrip_map_upper l :
  PyStr.lstrip_chars (map PyStr.upper_char l)
  = map PyStr.upper_char (PyStr.lstrip_chars l).
Proof.
  induction l as [|c r IH]; cbn; [reflexivity|].
  rewrite is_space_upper_char. now destruct (PyStr.is_space c).
Qed.

(** [strip] and [upper] commute. *)
Lemma strip_upper s : PyStr.strip (PyStr.upper s) = PyStr.upper (PyStr.strip s).
Proof.
  unfold PyStr.strip. rewrite upper_of_chars, upper_chars.
  now rewrite lstrip_map_upper, <- map_rev, lstrip_map_upper, <- map_rev.
Qed.

Lemma lstrip_idem l :
  PyStr.lstrip_chars (PyStr.lstrip_chars l) = PyStr.lstrip_chars l.
Proof.
  induction l as [|c r IH]; cbn; [reflexivity|].
  destruct (PyStr.is_space c) eqn:E; [exact IH|]. cbn. now rewrite E.
Qed.

Lemma lstrip_app a b :
  PyStr.lstrip_chars (a ++ b)
  = if forallb PyStr.is_space a then PyStr.lstrip_chars b
    else PyStr.lstrip_chars a ++ b.
Proof.
  induction a as [|c r IH]; cbn; [reflexivity|].
  destruct (PyStr.is_space c); cbn; [exact IH | reflexivity].
Qed.

Lemma rstrip_idem l : rstrip_chars (rstrip_chars l) = rstrip_chars l.
Proof. unfold rstrip_chars. now rewrite rev_involutive, lstrip_idem. Qed.

(** Stripping on the right leaves a stripped left end alone. *)
Lemma lstrip_rstrip l :
  PyStr.lstrip_chars l = l ->
  PyStr.lstrip_chars (rstrip_chars l) = rstrip_chars l.
Proof.
  destruct l as [|c r]; [reflexivity|]. cbn [PyStr.lstrip_chars].
  destruct (PyStr.is_space c) eqn:E.
  - intros H. exfalso.
    assert (L : forall m, (List.length (PyStr.lstrip_chars m) <= List.length m)%nat).
    { induction m as [|x m IH]; cbn; [lia|].
      destruct (PyStr.is_space x); cbn; lia. }
    specialize (L r). rewrite H in L. cbn in L. lia.
  - intros _. unfold rstrip_chars. cbn [rev]. rewrite lstrip_app.
    destruct (forallb PyStr.is_space (rev r)).
    + cbn. rewrite E. cbn. now rewrite E.
    + rewrite rev_app_distr. cbn. now rewrite E.
Qed.

Lemma strip_idem s : PyStr.strip (PyStr.strip s) = PyStr.strip s.
Proof.
  unfold PyStr.strip. rewrite list_ascii_of_string_of_list_ascii.
  fold (rstrip_chars (PyStr.lstrip_chars (list_ascii_of_string s))).
  rewrite (lstrip_rstrip _ (lstrip_idem _)).
  fold (rstrip_chars (rstrip_chars (PyStr.lstrip_chars (list_ascii_of_string s)))).
  now rewrite rstrip_idem.
Qed.

Lemma upper_nonempty s : PyStr.truthy s = true -> PyStr.upper s <> EmptyString.
Proof. destruct s; cbn; congruence. Qed.

Lemma in_normalized x items :
  In x (normalized items) <->
  exists s, In (JStr s) items /\ PyStr.truthy (PyStr.strip s) = true /\
            x = PyStr.upper (PyStr.strip s).
Proof.
  induction items as [|[s|] r IH]; cbn.
  - split; [tauto | intros [s [[] _]]].
  - destruct (PyStr.truthy (PyStr.strip s)) eqn:T; cbn; rewrite IH; split.
    + intros [<-|[s' [I H]]]; [exists s; auto | exists s'; auto].
    + intros [s' [[[= <-]|I] [T' ->]]]; [auto | right; eauto].
    + intros [s' [I H]]. exists s'. auto.
    + intros [s' [[[= <-]|I] [T' ->]]]; [congruence | eauto].
  - rewrite IH. split; intros [s' [I H]]; exists s'; [auto|].
    destruct I as [I|I]; [discriminate | auto].
Qed.

Lemma normalized_normal x items : In x (normalized items) -> normal x.
Proof.
  rewrite in_normalized. intros [s [_ [T ->]]]. split; [|split].
  - now rewrite strip_upper, strip_idem.
  - apply upper_idem.
  - now apply upper_nonempty.
Qed.

(** ** What the loaders return *)

Lemma load_predictions_run F t :
  load_predictions F t
  = match predictions_at F t with
    | FileMissing => mk_run (Returned []) (S t) [Log WARNING PredictionsNotFound]
    | FileUnreadable e =>
        mk_run (Returned []) (S t) [Log ERROR (PredictionsUnreadable e)]
    | FileNotObject => mk_run (Raised AttributeError) (S t) []
    | FileObject StocksAbsent => mk_run (Returned []) (S t) []
    | FileObject (StocksItems items) =>
        mk_run (Returned (PyStr.sorted_set (normalized items))) (S t) []
    | FileObject StocksNotIterable => mk_run (Raised TypeError) (S t) []
    end.
Proof.
  unfold load_predictions, stocks_of, bind, ask, logger, emit, ret, raise.
  cbn [result clock_after events].
  destruct (predictions_at F t) as [|e| |[|l|]]; reflexivity.
Qed.

Lemma load_excluded_stocks_run F t :
  load_excluded_stocks F t
  = match excluded_at F t with
    | FileMissing => mk_run (Returned []) (S t) []
    | FileUnreadable e =>
        mk_run (Returned []) (S t) [Log ERROR (ExcludedUnparseable e)]
    | FileNotObject =>
        mk_run (Returned []) (S t) [Log ERROR (ExcludedUnparseable AttributeError)]
    | FileObject StocksAbsent => mk_run (Returned []) (S t) []
    | FileObject (StocksItems items) =>
        mk_run (Returned (PyStr.sorted_set (normalized items))) (S t) []
    | FileObject StocksNotIterable =>
        mk_run (Returned []) (S t) [Log ERROR (ExcludedUnparseable TypeError)]
    end.
Proof.
  unfold load_excluded_stocks, stocks_of, try_except, bind, ask, logger, emit,
    ret, raise.
  cbn [result clock_after events].
  destruct (excluded_at F t) as [|e| |[|l|]]; reflexivity.
Qed.

Lemma sorted_normalized_good items :
  Sorted string_lt (PyStr.sorted_set (normalized items)) /\
  NoDup (PyStr.sorted_set (normalized items)) /\
  (forall x, In x (PyStr.sorted_set (normalized items)) -> normal x).
Proof.
  split; [apply sorted_set_sorted|split].
  - apply sorted_NoDup, sorted_set_sorted.
  - intros x I. apply (proj1 (in_sorted_set _ _)) in I.
    exact (normalized_normal _ _ I).
Qed.

Lemma empty_good :
  Sorted string_lt [] /\ NoDup (@nil string) /\ (forall x, In x [] -> normal x).
Proof. split; [constructor|split; [constructor | intros x []]]. Qed.

(** X1.  Whatever the two JSON files hold, a list returned by either loader
    is strictly increasing in the order of the characters, so free of
    repetitions, and each of its symbols is stripped, in upper case and not
    empty. *)
Theorem loaders_return_sorted_normal_symbols F t :
  (forall l, result (load_predictions F t) = Returned l ->
             Sorted string_lt l /\ NoDup l /\ forall x, In x l -> normal x) /\
  (forall l, result (load_excluded_stocks F t) = Returned l ->
             Sorted string_lt l /\ NoDup l /\ forall x, In x l -> normal x).
Proof.
  split; intros l.
  - rewrite load_predictions_run.
    destruct (predictions_at F t) as [|e| |[|items|]]; cbn [result];
      intros [= <-]; auto using empty_good, sorted_normalized_good.
  - rewrite load_excluded_stocks_run.
    destruct (excluded_at F t) as [|e| |[|items|]]; cbn [result];
      intros [= <-]; auto using empty_good, sorted_normalized_good.
Qed.

(** X2.  When a file holds a list under ["stocks"], the loader returns the
    list; a symbol is in it exactly when it is the stripped, upper-cased form
    of a string of the file that is not blank.  Entries that are not strings
    and blank strings are dropped. *)
Theorem loaders_keep_the_symbols_of_the_file F t items :
  (predictions_at F t = FileObject (StocksItems items) ->
   exists l, result (load_predictions F t) = Returned l /\
     forall x, In x l <->
       exists s, In (JStr s) items /\ PyStr.strip s <> EmptyString /\
                 x = PyStr.upper (PyStr.strip s)) /\
  (excluded_at F t = FileObject (StocksItems items) ->
   exists l, result (load_excluded_stocks F t) = Returned l /\
     forall x, In x l <->
       exists s, In (JStr s) items /\ PyStr.strip s <> EmptyString /\
                 x = PyStr.upper (PyStr.strip s)).
Proof.
  assert (T : forall s, PyStr.truthy s = true <-> s <> EmptyString).
  { intros [|c r]; cbn; intuition congruence. }
  assert (H : forall x,
             In x (PyStr.sorted_set (normalized items)) <->
             exists s, In (JStr s) items /\ PyStr.strip s <> EmptyString /\
                       x = PyStr.upper (PyStr.strip s)).
  { intros x. rewrite in_sorted_set, in_normalized.
    split; intros [s [I [N E]]]; exists s; (split; [exact I|split; [|exact E]]);
      now apply T. }
  split; intros E.
  - rewrite load_predictions_run, E. cbn [result]. eauto.
  - rewrite load_excluded_stocks_run, E. cbn [result]. eauto.
Qed.

(** X3.  [load_excluded_stocks] never raises: a missing, unreadable or
    malformed file gives the empty set.  [load_predictions] returns the empty
    list for a missing or unreadable file, but lets the exception out when the
    parsed file is not an object ([AttributeError]) or its ["stocks"] entry
    cannot be iterated ([TypeError]): its [data.get] is outside the guarded
    block. *)
Theorem loaders_on_bad_files F t :
  (exists l, result (load_excluded_stocks F t) = Returned l /\
             ((forall items, excluded_at F t <> FileObject (StocksItems items)) ->
              l = [])) /\
  (forall e,
      result (load_predictions F t) = Raised e <->
      (predictions_at F t = FileNotObject /\ e = AttributeError) \/
      (predictions_at F t = FileObject StocksNotIterable /\ e = TypeError)) /\
  (predictions_at F t = FileMissing \/
   (exists e, predictions_at F t = FileUnreadable e) ->
   result (load_predictions F t) = Returned []).
Proof.
  split; [|split].
  - rewrite load_excluded_stocks_run.
    destruct (excluded_at F t) as [|e| |[|items|]]; cbn [result];
      eexists; (split; [reflexivity|]); auto.
    intros H. now destruct (H items).
  - intros e. rewrite load_predictions_run.
    destruct (predictions_at F t) as [|e'| |[|items|]]; cbn [result];
      split; try discriminate;
      try (intros [[? _]|[? _]]; discriminate);
      try (intros [= <-]; auto);
      intros [[? ->]|[? ->]]; (reflexivity || discriminate).
  - rewrite load_predictions_run. intros [-> |[e ->]]; reflexivity.
Qed.

(** * More on the engine *)

(** ** Properties of the events that pass through the loops *)

Lemma for_each_events_closed A S (body : A -> S -> M S)
      (Pr : list event -> Prop) :
  Pr [] ->
  (forall a b, Pr a -> Pr b -> Pr (a ++ b)) ->
  (forall x s t, exists s', result (body x s t) = Returned s') ->
  (forall x s t, Pr (events (body x s t))) ->
  forall l s t, Pr (events (for_each body l s t)).
Proof.
  intros Pnil Papp Hret Hbody l s t.
  destruct (for_each_invariant A S body (fun _ tr => Pr tr) Hret
              (fun x s t s' tr Htr _ => Papp _ _ Htr (Hbody x s t))
              l s t [] Pnil) as [s' [_ H]].
  exact H.
Qed.

Lemma run_cycle_returns K dry_run poll_seconds syms excl b t :
  exists b', result (run_cycle K dry_run poll_seconds syms excl b t) = Returned b'.
Proof.
  destruct (in_window (tod (now_at K t))) eqn:W.
  - destruct (entry_pass_returns K dry_run syms excl
                (b, fst (wallet_of (margins_at K (S t)))) (S (S t))) as [st E].
    destruct (exit_pass_returns K dry_run (tod (now_at K t)) (fst st) (fst st)
                (clock_after (entry_pass K dry_run syms excl
                   (b, fst (wallet_of (margins_at K (S t)))) (S (S t)))))
      as [b' X].
    rewrite (run_cycle_open K dry_run poll_seconds syms excl b t st b' W E X).
    now exists b'.
  - rewrite (run_cycle_closed K dry_run poll_seconds syms excl b t W).
    now exists b.
Qed.

Section Closed.

Variable K : gateway.
Variable dry_run : bool.
Variable poll_seconds : Z.
Variable max_cycles : option Z.
Variable Pr : list event -> Prop.

Hypothesis Pr_nil : Pr [].
Hypothesis Pr_app : forall a b, Pr a -> Pr b -> Pr (a ++ b).
Hypothesis Pr_log : forall lvl m, Pr [Log lvl m].
Hypothesis Pr_sleep_open : Pr [Sleep poll_seconds].
Hypothesis Pr_sleep_closed : Pr [Sleep (Z.max 15 poll_seconds)].
Hypothesis Pr_entry : forall excl s st t, Pr (events (entry_step K dry_run excl s st t)).
Hypothesis Pr_exit : forall now item b t, Pr (events (exit_step K dry_run now item b t)).

Lemma run_cycle_events_closed syms excl b t :
  Pr (events (run_cycle K dry_run poll_seconds syms excl b t)).
Proof.
  destruct (in_window (tod (now_at K t))) eqn:W.
  - destruct (entry_pass_returns K dry_run syms excl
                (b, fst (wallet_of (margins_at K (S t)))) (S (S t))) as [st E].
    destruct (exit_pass_returns K dry_run (tod (now_at K t)) (fst st) (fst st)
                (clock_after (entry_pass K dry_run syms excl
                   (b, fst (wallet_of (margins_at K (S t)))) (S (S t)))))
      as [b' X].
    rewrite (run_cycle_open K dry_run poll_seconds syms excl b t st b' W E X).
    cbn [events]. repeat apply Pr_app.
    + destruct (margins_at K (S t)) as [e|[[|q|]|]]; cbn; auto.
    + unfold entry_pass.
      apply for_each_events_closed; auto using entry_step_returns.
    + unfold exit_pass.
      apply for_each_events_closed; auto using exit_step_returns.
    + exact Pr_sleep_open.
  - rewrite (run_cycle_closed K dry_run poll_seconds syms excl b t W).
    exact Pr_sleep_closed.
Qed.

Lemma trading_loop_events_closed fuel : forall syms excl n b t,
  Pr (events (trading_loop K dry_run poll_seconds max_cycles fuel syms excl n b t)).
Proof.
  induction fuel as [|fuel IH]; intros syms excl n b t; [exact Pr_nil|].
  destruct (run_cycle_returns K dry_run poll_seconds syms excl b t) as [b1 E1].
  cbn [trading_loop]. rewrite (bind_returned _ _ _ _ _ _ E1). cbn [events].
  apply Pr_app; [apply run_cycle_events_closed|].
  destruct (max_reached max_cycles (S n)); [|apply IH].
  unfold bind, logger, emit, ret. cbn [result clock_after events app].
  apply Pr_log.
Qed.

Lemma bind_events_closed A B (m : M A) (k : A -> M B) t :
  Pr (events (m t)) ->
  (forall a, Pr (events (k a (clock_after (m t))))) ->
  Pr (events (bind m k t)).
Proof.
  intros Hm Hk. unfold bind.
  destruct (result (m t)); cbn [events]; auto.
Qed.

Lemma run_trading_loop_events_closed F fuel t :
  Pr (events (run_trading_loop K F dry_run poll_seconds max_cycles fuel t)).
Proof.
  unfold run_trading_loop. apply bind_events_closed.
  { rewrite load_predictions_run.
    destruct (predictions_at F t) as [|e| |[|items|]]; cbn [events]; auto. }
  intros syms. apply bind_events_closed.
  { rewrite load_excluded_stocks_run.
    destruct (excluded_at F _) as [|e| |[|items|]]; cbn [events]; auto. }
  intros excl.
  repeat (apply bind_events_closed; [apply Pr_log | intros _]).
  apply trading_loop_events_closed.
Qed.

End Closed.

(** ** The events of the order helper and of the two loop bodies *)

Lemma place_market_order_events K dry_run s qty txn t :
  events (place_market_order K dry_run s qty txn t)
  = (if dry_run then [Log INFO (DryRunNote txn s qty)] else [])
    ++ [PlaceOrder txn s qty dry_run
          (result (place_market_order K dry_run s qty txn t))].
Proof.
  unfold place_market_order. destruct dry_run.
  - reflexivity.
  - unfold bind, ask, emit, ret, raise. cbn [result clock_after events].
    destruct (place_order_at K t txn s qty); reflexivity.
Qed.

Section StepEvents.

Variable K : gateway.
Variable dry_run : bool.
Variable P : event -> Prop.

Hypothesis P_log : forall lvl m, P (Log lvl m).
Hypothesis P_journal : forall r, P (JournalLine r).
Hypothesis P_order : forall txn s qty t,
  P (PlaceOrder txn s qty dry_run
       (result (place_market_order K dry_run s qty txn t))).

Lemma place_market_order_forall s qty txn t :
  Forall P (events (place_market_order K dry_run s qty txn t)).
Proof.
  rewrite place_market_order_events. apply Forall_app. split.
  - destruct dry_run; repeat constructor; auto.
  - repeat constructor. apply P_order.
Qed.

Lemma entry_step_forall excl s st t :
  Forall P (events (entry_step K dry_run excl s st t)).
Proof.
  destruct st as [b w].
  destruct (entry_step_path K dry_run excl s b w t); cbn [events];
    try apply Forall_app; try split; unfold buy_call;
    auto using place_market_order_forall; repeat constructor; auto.
Qed.

Lemma exit_step_forall now item b t :
  Forall P (events (exit_step K dry_run now item b t)).
Proof.
  destruct item as [s trade].
  destruct (exit_step_path K dry_run now s trade b t); cbn [events];
    try apply Forall_app; try split; unfold sell_call;
    auto using place_market_order_forall; repeat constructor; auto.
Qed.

End StepEvents.

(** Every event of a run satisfies a property that holds of every log
    record, journal line, order call and sleep the program can produce. *)
Lemma run_events_forall K F dry_run poll_seconds max_cycles (P : event -> Prop) :
  (forall lvl m, P (Log lvl m)) ->
  (forall r, P (JournalLine r)) ->
  (forall txn s qty t,
      P (PlaceOrder txn s qty dry_run
           (result (place_market_order K dry_run s qty txn t)))) ->
  P (Sleep poll_seconds) ->
  P (Sleep (Z.max 15 poll_seconds)) ->
  forall fuel t,
    Forall P (events (run_trading_loop K F dry_run poll_seconds max_cycles fuel t)).
Proof.
  intros Hl Hj Ho Hs1 Hs2 fuel t.
  apply (run_trading_loop_events_closed K dry_run poll_seconds max_cycles
           (Forall P)).
  - constructor.
  - intros a b Ha Hb. apply Forall_app. auto.
  - intros lvl m. repeat constructor. apply Hl.
  - repeat constructor. exact Hs1.
  - repeat constructor. exact Hs2.
  - intros excl s st t0. now apply entry_step_forall.
  - intros now item b t0. now apply exit_step_forall.
Qed.

(** ** Dry runs *)

(** X4.  In dry-run mode the order entry point of the broker is never used:
    replacing it by any other leaves the whole run as it is; every call of the
    order helper is marked as a dry run and gives back a mock identifier made
    of the side, the symbol and the time, never an identifier of the broker. *)
Theorem dry_run_never_calls_the_broker K F po poll_seconds max_cycles fuel t :
  run_trading_loop (with_place_order po K) F true poll_seconds max_cycles fuel t
  = run_trading_loop K F true poll_seconds max_cycles fuel t
  /\
  Forall dry_event
    (events (run_trading_loop K F true poll_seconds max_cycles fuel t)).
Proof.
  split; [reflexivity|].
  apply run_events_forall; cbn; auto.
  intros txn s qty t0. split; [reflexivity|]. eauto.
Qed.

(** ** Sleeping *)

(** X5.  Outside the trading window (before 09:30 or after 15:15) a cycle
    reads the clock and sleeps for max(15, poll_seconds) seconds: it asks the
    broker nothing, places no order, writes no journal line and leaves the
    book as it is, whatever the predictions and the open positions. *)
Theorem closed_market_cycle_only_sleeps K dry_run poll_seconds syms excl b t :
  in_window (tod (now_at K t)) = false ->
  run_cycle K dry_run poll_seconds syms excl b t
  = mk_run (Returned b) (S t) [Sleep (Z.max 15 poll_seconds)]
  /\ (15 <= Z.max 15 poll_seconds)%Z.
Proof.
  intros W. split; [now apply run_cycle_closed | lia].
Qed.

Lemma closed_market_cycle_only_sleeps_witness :
  run_cycle (mk_gateway (fun _ => mk_datetime 0 (mk_time 16 0 0 0))
               (fun _ => 0%Z) (fun _ => MarginsDict None) quotes
               (fun _ _ _ _ => Raised OrderException) (fun _ => None))
            false 30 ["AAA"] [] [("BBB", position 1 700)] 0%nat
  = mk_run (Returned [("BBB", position 1 700)]) 1 [Sleep (Z.max 15 30)]
  /\ (15 <= Z.max 15 30)%Z.
Proof.
  apply (closed_market_cycle_only_sleeps
           (mk_gateway (fun _ => mk_datetime 0 (mk_time 16 0 0 0))
              (fun _ => 0%Z) (fun _ => MarginsDict None) quotes
              (fun _ _ _ _ => Raised OrderException) (fun _ => None))
           false 30 ["AAA"] [] [("BBB", position 1 700)] 0%nat).
  reflexivity.
Defined.

(** X6.  Every sleep of a run lasts either poll_seconds or
    max(15, poll_seconds) seconds, whatever happens in the cycles. *)
Theorem sleeps_last_the_polling_interval K F dry_run poll_seconds max_cycles
        fuel t :
  Forall (sleep_ok poll_seconds)
    (events (run_trading_loop K F dry_run poll_seconds max_cycles fuel t)).
Proof. apply run_events_forall; cbn; auto. Qed.

(** ** The journal *)

Lemma journal_backed_app a b :
  journal_backed a -> journal_backed b -> journal_backed (a ++ b).
Proof.
  intros Ha Hb r I. apply in_app_or in I. destruct I as [I|I].
  - destruct (Ha r I) as [d [id H]]. exists d, id. apply in_or_app. auto.
  - destruct (Hb r I) as [d [id H]]. exists d, id. apply in_or_app. auto.
Qed.

Lemma journal_backed_note ev : is_note ev = true -> journal_backed [ev].
Proof. intros N r [E|[]]. subst. discriminate. Qed.

Lemma no_journal_in_call K dry_run s qty txn t r :
  ~ In (JournalLine r) (events (place_market_order K dry_run s qty txn t)).
Proof.
  rewrite place_market_order_events. intros I. apply in_app_or in I.
  destruct I as [I|[I|[]]]; [|discriminate].
  destruct dry_run; [destruct I as [I|[]]; discriminate | destruct I].
Qed.

Lemma journal_backed_fill K dry_run s qty txn t id now p lvl m :
  result (place_market_order K dry_run s qty txn t) = Returned id ->
  journal_backed
    (events (place_market_order K dry_run s qty txn t)
     ++ [Log lvl m; JournalLine (entry_of now s txn qty p)]).
Proof.
  intros O r I. apply in_app_or in I.
  destruct I as [I|[I|[I|[]]]]; [now apply no_journal_in_call in I|discriminate|].
  injection I as <-. cbn [entry_of r_action r_symbol r_quantity].
  exists dry_run, id. apply in_or_app. left.
  rewrite place_market_order_events, O. apply in_or_app. right. now left.
Qed.

Lemma journal_backed_no_line evs :
  (forall r, ~ In (JournalLine r) evs) -> journal_backed evs.
Proof. intros H r I. now apply H in I. Qed.

Lemma journal_backed_nil : journal_backed [].
Proof. intros r []. Qed.

Lemma journal_backed_call_then_notes K dry_run s qty txn t notes :
  forallb is_note notes = true ->
  journal_backed (events (place_market_order K dry_run s qty txn t) ++ notes).
Proof.
  intros N. apply journal_backed_no_line. intros r I.
  apply in_app_or in I. destruct I as [I|I].
  - now apply no_journal_in_call in I.
  - rewrite forallb_forall in N. specialize (N _ I). discriminate.
Qed.

Lemma entry_step_journal_backed K dry_run excl s st t :
  journal_backed (events (entry_step K dry_run excl s st t)).
Proof.
  destruct st as [b w].
  destruct (entry_step_path K dry_run excl s b w t)
    as [E|e E Q|p E Q A|p e E Q _ _ O|p id e E Q _ _ O A|p id E Q _ _ O A];
    cbn [events]; unfold buy_call in *.
  - apply journal_backed_nil.
  - now apply journal_backed_note.
  - apply journal_backed_nil.
  - now apply journal_backed_call_then_notes.
  - now apply journal_backed_call_then_notes.
  - eapply journal_backed_fill. exact O.
Qed.

Lemma exit_step_journal_backed K dry_run now item b t :
  journal_backed (events (exit_step K dry_run now item b t)).
Proof.
  destruct item as [s trade].
  destruct (exit_step_path K dry_run now s trade b t)
    as [e' Q|p' Q X|p' e' Q X O|p' id' e' Q X O A|p' id' Q X O A];
    cbn [events]; unfold sell_call in *.
  - now apply journal_backed_note.
  - apply journal_backed_nil.
  - now apply journal_backed_call_then_notes.
  - now apply journal_backed_call_then_notes.
  - eapply journal_backed_fill. exact O.
Qed.

(** X7.  In the events of any run, every line written to the trade journal
    comes with an order call of the same side, symbol and quantity that gave an
    order identifier back: the journal never records a trade whose order was
    refused or never placed. *)
Theorem journal_lines_follow_accepted_orders K F dry_run poll_seconds
        max_cycles fuel t :
  journal_backed
    (events (run_trading_loop K F dry_run poll_seconds max_cycles fuel t)).
Proof.
  apply (run_trading_loop_events_closed K dry_run poll_seconds max_cycles
           journal_backed).
  - exact journal_backed_nil.
  - exact journal_backed_app.
  - intros lvl m. now apply journal_backed_note.
  - now apply journal_backed_note.
  - now apply journal_backed_note.
  - intros. apply entry_step_journal_backed.
  - intros. apply exit_step_journal_backed.
Qed.

(** ** What an entry step does to the book and the wallet *)

Lemma entry_step_book_priced K dry_run excl s (b : book) w t b' w' :
  result (entry_step K dry_run excl s (b, w) t) = Returned (b', w') ->
  (b' = b /\ w' = w) \/
  (exists p, 0 < p /\ p <= w /\ dict_mem s b = false /\
             set_mem s excl = false /\
             ltp_at K t (instrument s) = QuotePrice p /\
             b' = dict_set s (position (Qfloor (w / p)) p) b /\
             w' = w - inject_Z (Qfloor (w / p)) * p).
Proof.
  destruct (entry_step_path K dry_run excl s b w t)
    as [E|e E Q|p E Q A|p e E Q Hp Hw O|p id e E Q Hp Hw O A|p id E Q Hp Hw O A];
    cbn [result]; intros [= <- <-]; auto.
  right. apply orb_false_iff in E. destruct E. exists p. auto 10.
Qed.

Lemma position_sound w p : 0 < p -> p <= w -> sound (position (Qfloor (w / p)) p).
Proof.
  intros Hp Hw. unfold sound, position, PROFIT_TARGET, STOP_LOSS.
  cbn [quantity buy_price stop target].
  split; [now apply floor_at_least_one|]. split; [exact Hp|]. split; lra.
Qed.

(** X8.  In every state of the loop each open position holds at least one
    share, was bought at a positive price, and has its stop strictly below and
    its target strictly above that price. *)
Theorem open_positions_are_sound K dry_run excl b tr s trade :
  reachable K dry_run excl b tr -> In (s, trade) b -> sound trade.
Proof.
  intros R. revert s trade.
  induction R as [|b tr s0 w t b' w' R IH E|b tr now [s0 trade0] t b' R IH E
                  |b tr ev R IH N]; intros s trade I.
  - destruct I.
  - destruct (entry_step_book_priced _ _ _ _ _ _ _ _ _ E)
      as [[-> _]|[p [Hp [Hw [_ [_ [_ [-> _]]]]]]]]; [eauto|].
    apply in_dict_set in I. destruct I as [[= _ ->]|I]; [|eauto].
    now apply position_sound.
  - destruct (exit_step_book _ _ _ _ _ _ _ _ E) as [->| ->]; [eauto|].
    apply in_dict_pop in I. eauto.
  - eauto.
Qed.

Lemma open_positions_are_sound_witness : sound (position 2 400).
Proof.
  apply (open_positions_are_sound calm false [] [("AAA", position 2 400)]
           ([] ++ events (entry_step calm false [] "AAA" ([], 1000) 0%nat))
           "AAA" (position 2 400)).
  - apply (reach_entry calm false [] [] [] "AAA" 1000 0%nat
             [("AAA", position 2 400)] 200).
    + apply reach_start.
    + vm_compute. reflexivity.
  - left. reflexivity.
Defined.

(** ** Capital *)

Lemma book_cost_dict_set_fresh s qty p (b : book) :
  dict_mem s b = false ->
  book_cost (dict_set s (position qty p) b) == book_cost b + inject_Z qty * p.
Proof.
  unfold dict_mem. induction b as [|[k v] r IH]; cbn.
  - intros _. ring.
  - destruct (String.eqb s k); [discriminate|]. intros H. cbn.
    rewrite (IH H). ring.
Qed.

Lemma spent_within_wallet w p :
  0 < p -> p <= w ->
  0 <= inject_Z (Qfloor (w / p)) * p /\
  inject_Z (Qfloor (w / p)) * p <= w /\
  w - inject_Z (Qfloor (w / p)) * p < p.
Proof.
  intros Hp Hw.
  destruct (Qfloor_is_floor (w / p)) as [Lo Hi].
  assert (E : w / p * p == w) by (field; intro Z; rewrite Z in Hp; lra).
  assert (Q1 : (1 <= Qfloor (w / p))%Z) by now apply floor_at_least_one.
  assert (Q0 : 0 <= inject_Z (Qfloor (w / p))).
  { change 0 with (inject_Z 0). rewrite <- Zle_Qle. lia. }
  split; [apply Qmult_le_0_compat; [exact Q0 | lra]|].
  assert (L : inject_Z (Qfloor (w / p)) * p <= w / p * p).
  { apply Qmult_le_compat_r; [exact Lo | lra]. }
  assert (U : w / p * p < inject_Z (Qfloor (w / p) + 1) * p).
  { apply Qmult_lt_compat_r; [exact Hp | exact Hi]. }
  rewrite E in L, U. rewrite inject_Z_plus in U.
  split; [exact L|].
  assert (D : (inject_Z (Qfloor (w / p)) + inject_Z 1) * p
              == inject_Z (Qfloor (w / p)) * p + p) by ring.
  rewrite D in U. lra.
Qed.

(** X9.  An entry pass started with a wallet that is not negative never
    spends more than the wallet: the wallet it ends with is between 0 and the
    wallet it started with, and what it took from the wallet is exactly the
    cost (quantity times entry price) of the positions it added to the book. *)
Theorem entry_pass_spends_within_wallet K dry_run syms excl (b : book) w t
        b' w' :
  0 <= w ->
  result (entry_pass K dry_run syms excl (b, w) t) = Returned (b', w') ->
  0 <= w' /\ w' <= w /\ book_cost b' + w' == book_cost b + w.
Proof.
  intros Hw E.
  destruct (for_each_invariant _ _ (entry_step K dry_run excl)
              (fun st _ => 0 <= snd st /\ snd st <= w /\
                           book_cost (fst st) + snd st == book_cost b + w)
              (fun x s t => entry_step_returns K dry_run excl x s t))
    with (l := syms) (s := (b, w)) (t := t) (tr := @nil event)
    as [st [E' H]].
  - intros x [b0 w0] t0 [b1 w1] tr [H0 [H1 H2]] E0. cbn [fst snd] in *.
    destruct (entry_step_book_priced _ _ _ _ _ _ _ _ _ E0)
      as [[-> ->]|[p [Hp [Hl [Hm [_ [_ [-> ->]]]]]]]]; [auto|].
    destruct (spent_within_wallet w0 p Hp Hl) as [S0 [S1 _]].
    rewrite (book_cost_dict_set_fresh _ _ _ _ Hm).
    split; [lra|]. split; [lra|]. rewrite <- H2. ring.
  - cbn [fst snd]. split; [exact Hw|]. split; [apply Qle_refl | reflexivity].
  - unfold entry_pass in E. rewrite E in E'. injection E' as <-. exact H.
Qed.

Lemma entry_pass_spends_within_wallet_witness :
  0 <= 200 /\ 200 <= 1000 /\
  book_cost [("AAA", position 2 400)] + 200 == book_cost [] + 1000.
Proof.
  apply (entry_pass_spends_within_wallet calm false ["AAA"; "BBB"] [] [] 1000
           0%nat [("AAA", position 2 400)] 200).
  - unfold Qle. cbn. lia.
  - vm_compute. reflexivity.
Defined.



(** ** One symbol at a time *)

Lemma dict_get_dict_set_other V (k k' : symbol) (v : V) (d : dict V) :
  k' <> k -> dict_get k' (dict_set k v d) = dict_get k' d.
Proof.
  intros N. induction d as [|[k0 v0] r IH]; cbn.
  - now rewrite (proj2 (String.eqb_neq k' k) N).
  - destruct (String.eqb_spec k k0) as [->|N0]; cbn.
    + now rewrite (proj2 (String.eqb_neq k' k0) N).
    + now rewrite IH.
Qed.

Lemma dict_get_dict_pop_other V (k k' : symbol) (d : dict V) :
  k' <> k -> dict_get k' (dict_pop k d) = dict_get k' d.
Proof.
  intros N. induction d as [|[k0 v0] r IH]; cbn; [reflexivity|].
  destruct (String.eqb_spec k k0) as [->|N0]; cbn.
  - now rewrite (proj2 (String.eqb_neq k' k0) N).
  - now rewrite IH.
Qed.

(** X11.  A turn of either loop touches no position but that of its own
    symbol.  An entry step leaves the positions of all other symbols as they
    are.  An exit step places no order for another symbol, sells the whole
    quantity of the position or nothing, leaves the positions of all other
    symbols as they are, and leaves the whole book as it is when the quote
    cannot be fetched. *)
Theorem steps_touch_only_their_symbol K dry_run excl now s trade (b : book) w t :
  (exists b' w',
      result (entry_step K dry_run excl s (b, w) t) = Returned (b', w') /\
      forall s', s' <> s -> dict_get s' b' = dict_get s' b) /\
  (exists b',
      result (exit_step K dry_run now (s, trade) b t) = Returned b' /\
      (forall s', s' <> s -> dict_get s' b' = dict_get s' b) /\
      ((order_calls (events (exit_step K dry_run now (s, trade) b t)) = [] /\
        b' = b) \/
       (order_calls (events (exit_step K dry_run now (s, trade) b t))
        = [PlaceOrder SELL s (quantity trade) dry_run
             (result (sell_call K dry_run s trade t))] /\
        b' = dict_pop s b)) /\
      (forall e, ltp_at K t (instrument s) = QuoteRaise e ->
                 b' = b /\
                 events (exit_step K dry_run now (s, trade) b t)
                 = [Log ERROR (ExitFetchPriceFailed s e)])).
Proof.
  split.
  - destruct (entry_step_returns K dry_run excl s (b, w) t) as [[b' w'] E].
    exists b', w'. split; [exact E|]. intros s' N.
    destruct (entry_step_book_priced _ _ _ _ _ _ _ _ _ E)
      as [[-> _]|[p [_ [_ [_ [_ [_ [-> _]]]]]]]]; [reflexivity|].
    now apply dict_get_dict_set_other.
  - destruct (exit_step_path K dry_run now s trade b t)
      as [e' Q|p' Q X|p' e' Q X O|p' id' e' Q X O A|p' id' Q X O A];
      cbn [result events]; eexists; (split; [reflexivity|]);
      (split; [intros s' N; try reflexivity; now apply dict_get_dict_pop_other|]);
      (split; [|intros e Q'; try congruence; now injection (eq_trans (eq_sym Q) Q') as <-]);
      try (left; split; reflexivity);
      right; unfold sell_call; rewrite order_calls_call; split; reflexivity.
Qed.

(** ** Counting the turns of the loop *)

Lemma cycles_app a b : cycles (a ++ b) = (cycles a + cycles b)%nat.
Proof. unfold cycles. now rewrite filter_app, length_app. Qed.

Lemma no_sleep_forall evs :
  Forall (fun ev => is_sleep ev = false) evs -> cycles evs = 0%nat.
Proof.
  unfold cycles. induction 1 as [|ev r H _ IH]; cbn; [reflexivity|].
  now rewrite H.
Qed.

Lemma entry_pass_no_sleep K dry_run syms excl st t :
  cycles (events (entry_pass K dry_run syms excl st t)) = 0%nat.
Proof.
  unfold entry_pass.
  apply (for_each_events_closed _ _ (entry_step K dry_run excl)
           (fun evs => cycles evs = 0%nat)).
  - reflexivity.
  - intros a b Ha Hb. now rewrite cycles_app, Ha, Hb.
  - intros. apply entry_step_returns.
  - intros x s t0. apply no_sleep_forall, entry_step_forall; reflexivity.
Qed.

Lemma exit_pass_no_sleep K dry_run now b t :
  cycles (events (exit_pass K dry_run now b t)) = 0%nat.
Proof.
  unfold exit_pass.
  apply (for_each_events_closed _ _ (exit_step K dry_run now)
           (fun evs => cycles evs = 0%nat)).
  - reflexivity.
  - intros a b0 Ha Hb. now rewrite cycles_app, Ha, Hb.
  - intros. apply exit_step_returns.
  - intros x s t0. apply no_sleep_forall, exit_step_forall; reflexivity.
Qed.

(** Every cycle returns and sleeps once. *)
Lemma run_cycle_sleeps_once K dry_run poll_seconds syms excl b t :
  cycles (events (run_cycle K dry_run poll_seconds syms excl b t)) = 1%nat.
Proof.
  destruct (in_window (tod (now_at K t))) eqn:W.
  - destruct (entry_pass_returns K dry_run syms excl
                (b, fst (wallet_of (margins_at K (S t)))) (S (S t))) as [st E].
    destruct (exit_pass_returns K dry_run (tod (now_at K t)) (fst st) (fst st)
                (clock_after (entry_pass K dry_run syms excl
                   (b, fst (wallet_of (margins_at K (S t)))) (S (S t)))))
      as [b' X].
    rewrite (run_cycle_open K dry_run poll_seconds syms excl b t st b' W E X).
    cbn [events]. rewrite !cycles_app, entry_pass_no_sleep, exit_pass_no_sleep.
    destruct (margins_at K (S t)) as [e|[[|q|]|]]; reflexivity.
  - now rewrite (run_cycle_closed K dry_run poll_seconds syms excl b t W).
Qed.

Lemma trading_loop_unbounded K dry_run poll_seconds fuel :
  forall syms excl n b t,
  exists b',
    result (trading_loop K dry_run poll_seconds None fuel syms excl n b t)
    = Returned (StillRunning, b') /\
    cycles (events (trading_loop K dry_run poll_seconds None fuel syms excl n b t))
    = fuel.
Proof.
  induction fuel as [|fuel IH]; intros syms excl n b t.
  - exists b. split; reflexivity.
  - destruct (run_cycle_returns K dry_run poll_seconds syms excl b t) as [b1 E1].
    cbn [trading_loop]. rewrite (bind_returned _ _ _ _ _ _ E1).
    cbn [result events max_reached].
    destruct (IH syms excl (S n) b1
                (clock_after (run_cycle K dry_run poll_seconds syms excl b t)))
      as [b' [E C]].
    exists b'. split; [exact E|].
    now rewrite cycles_app, run_cycle_sleeps_once, C.
Qed.

Lemma trading_loop_bounded K dry_run poll_seconds m fuel :
  forall syms excl n b t,
  (Z.max 1 (m - Z.of_nat n) <= Z.of_nat fuel)%Z ->
  exists b',
    result (trading_loop K dry_run poll_seconds (Some m) fuel syms excl n b t)
    = Returned (MaxCyclesEnd, b') /\
    Z.of_nat
      (cycles (events (trading_loop K dry_run poll_seconds (Some m) fuel
                         syms excl n b t)))
    = Z.max 1 (m - Z.of_nat n).
Proof.
  induction fuel as [|fuel IH]; intros syms excl n b t Hf; [lia|].
  destruct (run_cycle_returns K dry_run poll_seconds syms excl b t) as [b1 E1].
  cbn [trading_loop]. rewrite (bind_returned _ _ _ _ _ _ E1).
  cbn [result events max_reached].
  destruct (m <=? Z.of_nat (S n))%Z eqn:Hm.
  - apply Z.leb_le in Hm. exists b1.
    unfold bind, logger, emit, ret. cbn [result clock_after events].
    split; [reflexivity|].
    rewrite cycles_app, run_cycle_sleeps_once. cbn. lia.
  - apply Z.leb_gt in Hm.
    destruct (IH syms excl (S n) b1
                (clock_after (run_cycle K dry_run poll_seconds syms excl b t)))
      as [b' [E C]]; [lia|].
    exists b'. split; [exact E|].
    rewrite cycles_app, run_cycle_sleeps_once. lia.
Qed.

(** X12.  Without a maximum the loop does not end by itself: it is still
    running after any number of turns.  With a maximum [m] it ends after
    max(1, m) turns exactly (the test comes after the first turn, so a maximum
    of 0 or less still gives one turn), and it ends by the maximum, not by an
    exception. *)
Theorem loop_runs_max_cycles_turns K dry_run poll_seconds syms excl b t :
  (forall fuel,
      exists b',
        result (trading_loop K dry_run poll_seconds None fuel syms excl 0 b t)
        = Returned (StillRunning, b') /\
        cycles (events (trading_loop K dry_run poll_seconds None fuel syms
                          excl 0 b t)) = fuel) /\
  (forall m fuel,
      (Z.max 1 m <= Z.of_nat fuel)%Z ->
      exists b',
        result (trading_loop K dry_run poll_seconds (Some m) fuel syms excl 0 b t)
        = Returned (MaxCyclesEnd, b') /\
        Z.of_nat
          (cycles (events (trading_loop K dry_run poll_seconds (Some m) fuel
                             syms excl 0 b t)))
        = Z.max 1 m).
Proof.
  split.
  - intros fuel. apply trading_loop_unbounded.
  - intros m fuel Hf.
    destruct (trading_loop_bounded K dry_run poll_seconds m fuel syms excl
                0%nat b t) as [b' [E C]]; [cbn; lia|].
    exists b'. split; [exact E|]. rewrite C. cbn. lia.
Qed.

(** ** Where positions come from *)

Lemma for_each_state_invariant A S (body : A -> S -> M S) (I : S -> Prop)
      (l0 : list A) :
  (forall x s t, exists s', result (body x s t) = Returned s') ->
  (forall x s t s', In x l0 -> I s -> result (body x s t) = Returned s' -> I s') ->
  forall l, incl l l0 ->
  forall s t, I s ->
    exists s', result (for_each body l s t) = Returned s' /\ I s'.
Proof.
  intros Hret Hstep. induction l as [|x r IH]; intros Hl s t Hs.
  - exists s. split; [reflexivity | exact Hs].
  - destruct (Hret x s t) as [s1 E1]. rewrite for_each_cons.
    rewrite (bind_returned _ _ _ _ _ _ E1). cbn [result].
    apply IH.
    + intros y Hy. apply Hl. now right.
    + apply (Hstep x s t s1); [apply Hl; now left | exact Hs | exact E1].
Qed.

Lemma run_cycle_keys K dry_run poll_seconds syms excl (b : book) t b' :
  incl (keys b) syms ->
  result (run_cycle K dry_run poll_seconds syms excl b t) = Returned b' ->
  incl (keys b') syms.
Proof.
  intros Hb E. destruct (in_window (tod (now_at K t))) eqn:W.
  - destruct (for_each_state_invariant _ _ (entry_step K dry_run excl)
                (fun st => incl (keys (fst st)) syms) syms
                (fun x s t => entry_step_returns K dry_run excl x s t))
      with (l := syms) (s := (b, fst (wallet_of (margins_at K (S t)))))
           (t := S (S t)) as [st [E1 H1]].
    + intros x [b0 w0] t0 [b1 w1] Hx H0 E0. cbn [fst] in *.
      destruct (entry_step_book_priced _ _ _ _ _ _ _ _ _ E0)
        as [[-> _]|[p [_ [_ [Hm [_ [_ [-> _]]]]]]]]; [exact H0|].
      rewrite keys_dict_set, Hm. intros y Hy. apply in_app_or in Hy.
      destruct Hy as [Hy|[<-|[]]]; auto.
    + apply incl_refl.
    + exact Hb.
    + destruct (for_each_state_invariant _ _ (exit_step K dry_run (tod (now_at K t)))
                  (fun b0 => incl (keys b0) syms) (fst st)
                  (fun x s t0 => exit_step_returns K dry_run (tod (now_at K t)) x s t0))
        with (l := fst st) (s := fst st)
             (t := clock_after (entry_pass K dry_run syms excl
                      (b, fst (wallet_of (margins_at K (S t)))) (S (S t))))
        as [b2 [E2 H2]].
      * intros [s0 trade0] b0 t0 b1 _ H0 E0.
        destruct (exit_step_book _ _ _ _ _ _ _ _ E0) as [->| ->]; [exact H0|].
        intros y Hy. apply H0. exact (in_keys_dict_pop _ _ _ _ Hy).
      * apply incl_refl.
      * exact H1.
      * rewrite (run_cycle_open K dry_run poll_seconds syms excl b t st b2 W E1 E2)
          in E.
        cbn [result] in E. injection E as <-. exact H2.
  - rewrite (run_cycle_closed K dry_run poll_seconds syms excl b t W) in E.
    cbn [result] in E. injection E as <-. exact Hb.
Qed.

(** X13.  Whatever the broker answers, after any number of turns of a loop
    started with an empty book, every symbol that has an open position is one
    of the symbols to trade. *)
Theorem positions_only_for_predictions K dry_run poll_seconds max_cycles
        fuel syms excl n t e b' s :
  result (trading_loop K dry_run poll_seconds max_cycles fuel syms excl n [] t)
  = Returned (e, b') ->
  In s (keys b') -> In s syms.
Proof.
  assert (G : forall fuel n (b : book) t e b',
             incl (keys b) syms ->
             result (trading_loop K dry_run poll_seconds max_cycles fuel syms
                       excl n b t) = Returned (e, b') ->
             incl (keys b') syms).
  { clear. induction fuel as [|fuel IH]; intros n b t e b' Hb E.
    - cbn in E. injection E as _ <-. exact Hb.
    - destruct (run_cycle_returns K dry_run poll_seconds syms excl b t)
        as [b1 E1].
      cbn [trading_loop] in E. rewrite (bind_returned _ _ _ _ _ _ E1) in E.
      cbn [result] in E.
      pose proof (run_cycle_keys K dry_run poll_seconds syms excl b t b1 Hb E1)
        as H1.
      destruct (max_reached max_cycles (S n)).
      + unfold bind, logger, emit, ret in E. cbn [result] in E.
        injection E as _ <-. exact H1.
      + exact (IH _ _ _ _ _ H1 E). }
  intros E I. apply (G fuel n [] t e b'); [intros y [] | exact E | exact I].
Qed.

Lemma positions_only_for_predictions_witness : In "AAA" ["AAA"; "BBB"].
Proof.
  apply (positions_only_for_predictions calm false 30 None 1 ["AAA"; "BBB"] []
           0%nat 0%nat StillRunning [("AAA", position 2 400)] "AAA").
  - vm_compute. reflexivity.
  - left. reflexivity.
Defined.

(** * Start-up *)

(** ** Environment variables *)

Lemma in_missing_env_vars env keys key :
  In key (missing_env_vars env keys) <-> In key keys /\ blank (env key) = true.
Proof.
  induction keys as [|k r IH]; cbn; [tauto|].
  destruct (blank (env k)) eqn:B; cbn; rewrite IH; intuition congruence.
Qed.

(** X14.  [missing_env_vars] gives the names, in the order asked, of the
    variables that are unset or hold only white space; it is empty exactly when
    every variable asked for has a value that is not blank. *)
Theorem missing_env_vars_lists_blank_variables env keys :
  missing_env_vars env keys = filter (fun key => blank (env key)) keys /\
  (forall key, In key (missing_env_vars env keys) <->
               In key keys /\
               (env key = None \/
                exists v, env key = Some v /\ PyStr.strip v = EmptyString)) /\
  (missing_env_vars env keys = [] <->
   forall key, In key keys ->
     exists v, env key = Some v /\ PyStr.strip v <> EmptyString).
Proof.
  assert (B : forall value,
             blank value = true <->
             value = None \/ exists v, value = Some v /\ PyStr.strip v = EmptyString).
  { intros [v|]; cbn.
    - destruct (PyStr.strip v) eqn:E; cbn; split; intros H;
        try discriminate; eauto.
      destruct H as [H|[v' [[= <-] H]]]; congruence.
    - intuition. }
  split; [|split].
  - induction keys as [|k r IH]; cbn; [reflexivity|].
    destruct (blank (env k)); now rewrite IH.
  - intros key. now rewrite in_missing_env_vars, B.
  - split.
    + intros E key I. destruct (blank (env key)) eqn:Bk.
      * assert (In key (missing_env_vars env keys))
          by (apply in_missing_env_vars; auto).
        rewrite E in H. destruct H.
      * destruct (env key) as [v|]; [|discriminate]. exists v. split; [reflexivity|].
        cbn in Bk. intro Z. rewrite Z in Bk. discriminate.
    + intros H. destruct (missing_env_vars env keys) as [|k r] eqn:E; [reflexivity|].
      assert (I : In k (missing_env_vars env keys)) by (rewrite E; now left).
      apply in_missing_env_vars in I. destruct I as [I Bk].
      destruct (H k I) as [v [Ev Nv]]. rewrite Ev in Bk. cbn in Bk.
      destruct (PyStr.strip v); [congruence | discriminate].
Qed.

(** X15.  [create_kite_client] raises exactly when KITE_API_KEY or
    KITE_ACCESS_TOKEN is unset or blank, with a message that names the missing
    ones; a client it returns carries a key and a token that are not blank.
    [deploy_check.main] exits with 0 when KITE_API_KEY, KITE_ACCESS_TOKEN and
    TELEGRAM_TOKEN are all set and not blank, and with 1 otherwise. *)
Theorem credentials_are_checked env base_dir logs_exist predictions_exist :
  ((exists msg, create_kite_client env = inl msg) <->
   blank (env "KITE_API_KEY") = true \/ blank (env "KITE_ACCESS_TOKEN") = true) /\
  (forall msg, create_kite_client env = inl msg ->
     msg = missing_message
             (missing_env_vars env ["KITE_API_KEY"; "KITE_ACCESS_TOKEN"])) /\
  (forall c, create_kite_client env = inr c ->
     exists k tok, api_key c = Some k /\ access_token c = Some tok /\
                   PyStr.strip k <> EmptyString /\ PyStr.strip tok <> EmptyString) /\
  (snd (deploy_check_main env base_dir logs_exist predictions_exist) = 0%Z <->
   blank (env "KITE_API_KEY") = false /\ blank (env "KITE_ACCESS_TOKEN") = false /\
   blank (env "TELEGRAM_TOKEN") = false) /\
  (snd (deploy_check_main env base_dir logs_exist predictions_exist) = 0%Z \/
   snd (deploy_check_main env base_dir logs_exist predictions_exist) = 1%Z).
Proof.
  assert (N : forall v, blank (Some v) = false -> PyStr.strip v <> EmptyString).
  { intros v H Z. cbn in H. rewrite Z in H. discriminate. }
  split; [|split; [|split; [|split]]].
  - unfold create_kite_client. cbn [missing_env_vars].
    destruct (blank (env "KITE_API_KEY")), (blank (env "KITE_ACCESS_TOKEN"));
      split; eauto; intros [msg H] || intros [H|H]; discriminate.
  - intros msg. unfold create_kite_client.
    destruct (missing_env_vars env ["KITE_API_KEY"; "KITE_ACCESS_TOKEN"]);
      [discriminate|]. now intros [= <-].
  - intros c. unfold create_kite_client. cbn [missing_env_vars].
    destruct (blank (env "KITE_API_KEY")) eqn:B1;
      destruct (blank (env "KITE_ACCESS_TOKEN")) eqn:B2; try discriminate.
    intros [= <-]. cbn [api_key access_token].
    destruct (env "KITE_API_KEY") as [k|]; [|discriminate].
    destruct (env "KITE_ACCESS_TOKEN") as [tok|]; [|discriminate].
    exists k, tok. auto.
  - unfold deploy_check_main. cbn [missing_env_vars].
    destruct (blank (env "KITE_API_KEY")), (blank (env "KITE_ACCESS_TOKEN")),
      (blank (env "TELEGRAM_TOKEN")); cbn [snd];
      split; auto; try discriminate; intros [? [? ?]]; discriminate.
  - unfold deploy_check_main. cbn [missing_env_vars].
    destruct (blank (env "KITE_API_KEY")), (blank (env "KITE_ACCESS_TOKEN")),
      (blank (env "TELEGRAM_TOKEN")); cbn [snd]; auto.
Qed.

(** ** [main] *)

Lemma bind_raised A B (m : M A) (k : A -> M B) (t : nat) (e : exn) :
  result (m t) = Raised e ->
  bind m k t = mk_run (Raised e) (clock_after (m t)) (events (m t)).
Proof. unfold bind. now intros ->. Qed.

Lemma load_excluded_stocks_returns F t :
  exists l, result (load_excluded_stocks F t) = Returned l.
Proof.
  rewrite load_excluded_stocks_run.
  destruct (excluded_at F t) as [|e| |[|items|]]; cbn; eauto.
Qed.

(** The loop raises exactly when the predictions cannot be loaded. *)
Lemma run_trading_loop_result K F dry_run poll_seconds max_cycles fuel t :
  match result (load_predictions F t) with
  | Raised e =>
      result (run_trading_loop K F dry_run poll_seconds max_cycles fuel t)
      = Raised e
  | Returned syms =>
      exists x,
        result (run_trading_loop K F dry_run poll_seconds max_cycles fuel t)
        = Returned x
  end.
Proof.
  unfold run_trading_loop.
  destruct (result (load_predictions F t)) as [syms|e] eqn:E.
  - rewrite (bind_returned _ _ _ _ _ _ E). cbn [result].
    destruct (load_excluded_stocks_returns F (clock_after (load_predictions F t)))
      as [excl E'].
    rewrite (bind_returned _ _ _ _ _ _ E'). cbn [result].
    rewrite (bind_returned _ _ (logger INFO (SymbolsToTrade syms)) _ _ tt eq_refl).
    cbn [result clock_after].
    rewrite (bind_returned _ _ (logger INFO (ExcludedSymbols excl)) _ _ tt eq_refl).
    cbn [result clock_after].
    rewrite (bind_returned _ _ (logger INFO StartingLoop) _ _ tt eq_refl).
    cbn [result clock_after].
    destruct (trading_loop_reachable K dry_run poll_seconds max_cycles fuel
                syms excl 0%nat [] (clock_after (load_excluded_stocks F
                   (clock_after (load_predictions F t)))) []
                (reach_start K dry_run excl)) as [e [b [R _]]].
    unfold logger, emit in *. cbn [clock_after] in *. rewrite R. eauto.
  - now rewrite (bind_raised _ _ _ _ _ _ E).
Qed.

(** X16.  [main] without usable credentials logs the error and raises it
    before anything is read or asked: no interaction takes place.  With
    credentials it runs the loop with a polling interval of at least 5 seconds,
    so that no sleep is shorter than 5 seconds; it raises exactly when the
    predictions file cannot be used (see X3), and every error it raises has
    been logged. *)
Theorem main_checks_credentials_and_floors_polling env K F args fuel t :
  (forall msg,
      create_kite_client env = inl msg ->
      main env K F args fuel t
      = (MainRaised (RuntimeError msg), t, [LogException (RuntimeError msg)])) /\
  (forall c,
      create_kite_client env = inr c ->
      (forall secs,
          In (Engine (Sleep secs)) (snd (main env K F args fuel t)) ->
          (5 <= secs)%Z) /\
      (forall e,
          fst (fst (main env K F args fuel t)) = MainRaised (Escaped e) <->
          result (load_predictions F t) = Raised e) /\
      (forall msg,
          fst (fst (main env K F args fuel t)) <> MainRaised (RuntimeError msg))) /\
  (forall err,
      fst (fst (main env K F args fuel t)) = MainRaised err ->
      In (LogException err) (snd (main env K F args fuel t))).
Proof.
  pose proof (run_trading_loop_result K F (arg_dry_run args)
                (Z.max 5 (arg_poll_seconds args)) (arg_max_cycles args) fuel t)
    as R.
  pose proof (sleep_bound := run_events_forall K F (arg_dry_run args)
                (Z.max 5 (arg_poll_seconds args)) (arg_max_cycles args)
                (sleep_ok (Z.max 5 (arg_poll_seconds args)))).
  unfold main. split; [|split].
  - intros msg ->. reflexivity.
  - intros c ->. cbv zeta.
    destruct (result (load_predictions F t)) as [syms|e0] eqn:E.
    + destruct R as [x R]. rewrite R. cbn [fst snd].
      split; [|split; [split; discriminate | discriminate]].
      intros secs I. apply in_map_iff in I. destruct I as [ev [[= ->] I]].
      assert (H : Forall (sleep_ok (Z.max 5 (arg_poll_seconds args)))
                    (events (run_trading_loop K F (arg_dry_run args)
                               (Z.max 5 (arg_poll_seconds args))
                               (arg_max_cycles args) fuel t)))
        by (apply sleep_bound; cbn; auto).
      rewrite Forall_forall in H. specialize (H _ I). cbn in H. lia.
    + rewrite R. cbn [fst snd].
      split; [|split; [split; congruence | discriminate]].
      intros secs I. apply in_app_or in I. destruct I as [I|[I|[]]]; [|discriminate].
      apply in_map_iff in I. destruct I as [ev [[= ->] I]].
      assert (H : Forall (sleep_ok (Z.max 5 (arg_poll_seconds args)))
                    (events (run_trading_loop K F (arg_dry_run args)
                               (Z.max 5 (arg_poll_seconds args))
                               (arg_max_cycles args) fuel t)))
        by (apply sleep_bound; cbn; auto).
      rewrite Forall_forall in H. specialize (H _ I). cbn in H. lia.
  - intros err. destruct (create_kite_client env) as [msg|c].
    + cbn. intros [= <-]. auto.
    + cbv zeta.
      destruct (result (run_trading_loop K F (arg_dry_run args)
                          (Z.max 5 (arg_poll_seconds args))
                          (arg_max_cycles args) fuel t)) as [x|e];
        cbn [fst snd]; [discriminate|].
      intros [= <-]. apply in_or_app. right. now left.
Qed.

(** * The exclusion commands *)

Example split_drops_white_space :
  split "  /exclude   tcs " = ["/exclude"; "tcs"] /\
  split "/exclude" = ["/exclude"] /\
  split "" = [].
Proof. repeat split. Qed.

Example exclude_then_include :
  cmd_exclude true "/exclude tcs" (FileObject (StocksItems [JStr "INFY"]))
  = (FileObject (StocksItems [JStr "INFY"; JStr "TCS"]), Some (NowExcluded "TCS"))
  /\
  cmd_include true "/include Tcs"
              (FileObject (StocksItems [JStr "INFY"; JStr "TCS"]))
  = (FileObject (StocksItems [JStr "INFY"]), Some (NowIncluded "TCS")).
Proof. split; reflexivity. Qed.

(** ** Words *)

Lemma split_from_solid l : forall cur,
  forallb (fun c => negb (PyStr.is_space c)) cur = true ->
  Forall solid (split_from cur l).
Proof.
  induction l as [|c r IH]; intros cur Hc; cbn.
  - destruct cur as [|x cur']; [constructor|].
    repeat constructor.
    + intro Z. apply (f_equal (@List.length ascii)) in Z.
      rewrite length_rev in Z. discriminate.
    + rewrite forallb_forall in *. intros y Hy. apply Hc.
      now apply in_rev.
  - destruct (PyStr.is_space c) eqn:E.
    + destruct cur as [|x cur']; [now apply IH|].
      constructor; [|now apply IH].
      split.
      * intro Z. apply (f_equal (@List.length ascii)) in Z.
        rewrite length_rev in Z. discriminate.
      * rewrite forallb_forall in *. intros y Hy. apply Hc. now apply in_rev.
    + apply IH. cbn. now rewrite E.
Qed.

Lemma lstrip_solid w :
  forallb (fun c => negb (PyStr.is_space c)) w = true -> PyStr.lstrip_chars w = w.
Proof.
  destruct w as [|c r]; cbn; [reflexivity|].
  destruct (PyStr.is_space c); [discriminate | reflexivity].
Qed.

Lemma strip_solid w :
  solid w ->
  PyStr.strip (string_of_list_ascii w) = string_of_list_ascii w /\
  PyStr.truthy (string_of_list_ascii w) = true.
Proof.
  intros [N H]. split.
  - unfold PyStr.strip. rewrite list_ascii_of_string_of_list_ascii.
    rewrite (lstrip_solid w H).
    rewrite (lstrip_solid (rev w)); [now rewrite rev_involutive|].
    rewrite forallb_forall in *. intros y Hy. apply H. now apply in_rev.
  - destruct w; [congruence | reflexivity].
Qed.

(** A word given by [split] has no white space around it and is not empty. *)
Lemma split_words text w :
  In w (split text) -> PyStr.strip w = w /\ PyStr.truthy w = true.
Proof.
  unfold split. rewrite in_map_iff. intros [chars [<- I]].
  apply strip_solid.
  pose proof (split_from_solid (list_ascii_of_string text) [] eq_refl) as H.
  rewrite Forall_forall in H. now apply H.
Qed.

Lemma normal_upper_strip s :
  PyStr.truthy (PyStr.strip s) = true -> normal (PyStr.upper (PyStr.strip s)).
Proof.
  intros T. split; [|split].
  - now rewrite strip_upper, strip_idem.
  - apply upper_idem.
  - now apply upper_nonempty.
Qed.

Lemma word_symbol_normal text w :
  In w (split text) -> normal (PyStr.upper (PyStr.strip w)).
Proof.
  intros I. destruct (split_words text w I) as [E T].
  apply normal_upper_strip. now rewrite E.
Qed.

(** ** Writing the set and reading it back *)

Lemma normalized_of_normal l :
  Forall normal l -> normalized (map JStr l) = l.
Proof.
  induction 1 as [|x r [Hs [Hu Hn]] _ IH]; cbn; [reflexivity|].
  rewrite Hs, Hu, IH. destruct x; [congruence | reflexivity].
Qed.

Lemma sorted_set_normal l : Forall normal l -> Forall normal (PyStr.sorted_set l).
Proof.
  rewrite !Forall_forall. intros H x I. apply H. now apply in_sorted_set.
Qed.

Lemma load_excluded_normal store : Forall normal (load_excluded store).
Proof.
  rewrite Forall_forall. intros x I.
  destruct store as [|e| |[|items|]]; try destruct I.
  cbn in I. apply (proj1 (in_sorted_set _ _)) in I.
  exact (normalized_normal _ _ I).
Qed.

Lemma set_mem_in s l : set_mem s l = true <-> In s l.
Proof.
  unfold set_mem. rewrite existsb_exists. split.
  - intros [x [I E]]. apply String.eqb_eq in E. now subst.
  - intros I. exists s. split; [exact I | apply String.eqb_refl].
Qed.

Lemma saved_exclusions_are_read_back_aux excluded :
  Forall normal excluded ->
  load_excluded
    (FileObject (StocksItems (map JStr (PyStr.sorted_set excluded))))
  = PyStr.sorted_set excluded /\
  forall x,
    In x (load_excluded
            (FileObject (StocksItems (map JStr (PyStr.sorted_set excluded)))))
    <-> In x excluded.
Proof.
  intros N.
  assert (L : load_excluded
                (FileObject (StocksItems (map JStr (PyStr.sorted_set excluded))))
              = PyStr.sorted_set excluded).
  { cbn [load_excluded].
    rewrite (normalized_of_normal _ (sorted_set_normal _ N)).
    apply sorted_set_fixed, sorted_set_sorted. }
  split; [exact L|]. intros x. rewrite L. apply in_sorted_set.
Qed.

(** X17.  A set of symbols written by [save_excluded] is read back as the
    same set by [load_excluded] of the chat interface and by
    [load_excluded_stocks] of the engine, when its symbols are stripped, in
    upper case and not empty, as those of both loaders are; a file that cannot
    be opened for writing raises and nothing is written. *)
Theorem saved_exclusions_are_read_back excluded P E t :
  Forall normal excluded ->
  save_excluded false excluded = None /\
  exists store,
    save_excluded true excluded = Some store /\
    load_excluded store = PyStr.sorted_set excluded /\
    (forall x, In x (load_excluded store) <-> In x excluded) /\
    (E t = store ->
     load_excluded_stocks (mk_files P E) t
     = mk_run (Returned (PyStr.sorted_set excluded)) (S t) []).
Proof.
  intros N. split; [reflexivity|].
  assert (L : PyStr.sorted_set
                (normalized (map JStr (PyStr.sorted_set excluded)))
              = PyStr.sorted_set excluded).
  { rewrite (normalized_of_normal _ (sorted_set_normal _ N)).
    apply sorted_set_fixed, sorted_set_sorted. }
  eexists. split; [reflexivity|]. cbn [load_excluded]. rewrite L.
  split; [reflexivity|]. split; [intros x; apply in_sorted_set|].
  intros Et. rewrite load_excluded_stocks_run. cbn [excluded_at]. rewrite Et.
  now rewrite L.
Qed.

Lemma saved_exclusions_are_read_back_witness :
  save_excluded false ["TCS"; "INFY"] = None /\
  exists store,
    save_excluded true ["TCS"; "INFY"] = Some store /\
    load_excluded store = PyStr.sorted_set ["TCS"; "INFY"] /\
    (forall x, In x (load_excluded store) <-> In x ["TCS"; "INFY"]) /\
    ((fun _ : nat => FileObject (StocksItems [JStr "INFY"; JStr "TCS"])) 1%nat
     = store ->
     load_excluded_stocks
       (mk_files (fun _ => FileMissing)
                 (fun _ => FileObject (StocksItems [JStr "INFY"; JStr "TCS"])))
       1%nat
     = mk_run (Returned (PyStr.sorted_set ["TCS"; "INFY"])) 2 []).
Proof.
  apply (saved_exclusions_are_read_back ["TCS"; "INFY"] (fun _ => FileMissing)
           (fun _ => FileObject (StocksItems [JStr "INFY"; JStr "TCS"])) 1%nat).
  repeat constructor; discriminate.
Defined.

(** ** The engine and the chat interface read the same set *)

Lemma engine_reads_like_chat F t :
  result (load_excluded_stocks F t) = Returned (load_excluded (excluded_at F t)).
Proof.
  rewrite load_excluded_stocks_run.
  destruct (excluded_at F t) as [|e| |[|items|]]; reflexivity.
Qed.

Lemma load_events_silent F t txn s :
  placed txn s (events (load_predictions F t)) = false /\
  placed txn s (events (load_excluded_stocks F t)) = false.
Proof.
  rewrite load_predictions_run, load_excluded_stocks_run.
  destruct (predictions_at F t) as [|e| |[|items|]];
    destruct (excluded_at F t) as [|e'| |[|items'|]]; split; reflexivity.
Qed.

(** A run never buys a symbol of the set it read when it started. *)
Lemma run_never_buys_excluded K F dry_run poll_seconds max_cycles fuel t s :
  In s (load_excluded (excluded_at F (S t))) ->
  placed BUY s
    (events (run_trading_loop K F dry_run poll_seconds max_cycles fuel t))
  = false.
Proof.
  intros I. unfold run_trading_loop.
  destruct (result (load_predictions F t)) as [syms|e] eqn:E.
  - rewrite (bind_returned _ _ _ _ _ _ E). cbn [events].
    rewrite load_predictions_clock.
    rewrite (bind_returned _ _ _ _ _ _ (engine_reads_like_chat F (S t))).
    cbn [events].
    rewrite (bind_returned _ _ (logger INFO (SymbolsToTrade syms)) _ _ tt eq_refl).
    cbn [events clock_after].
    rewrite (bind_returned _ _ (logger INFO (ExcludedSymbols _)) _ _ tt eq_refl).
    cbn [events clock_after].
    rewrite (bind_returned _ _ (logger INFO StartingLoop) _ _ tt eq_refl).
    cbn [events clock_after].
    rewrite !placed_app.
    rewrite (proj1 (load_events_silent F t BUY s)).
    rewrite (proj2 (load_events_silent F (S t) BUY s)).
    unfold logger, emit. cbn [events clock_after placed existsb is_order orb].
    destruct (trading_loop_reachable K dry_run poll_seconds max_cycles fuel
                syms (load_excluded (excluded_at F (S t))) 0%nat []
                (clock_after (load_excluded_stocks F (S t))) []
                (reach_start K dry_run _)) as [e [b [_ R]]].
    destruct (reachable_ok _ _ _ _ _ R) as [_ [_ H]].
    exact (proj1 (H s (proj2 (set_mem_in _ _) I))).
  - rewrite (bind_raised _ _ _ _ _ _ E). cbn [events].
    apply load_events_silent.
Qed.

(** ** [/exclude] *)

Lemma exclude_command_effect_aux text cmd word store :
  split text = [cmd; word] ->
  normal (PyStr.upper (PyStr.strip word)) /\
  forall x,
    In x (load_excluded (fst (cmd_exclude true text store))) <->
    x = PyStr.upper (PyStr.strip word) \/ In x (load_excluded store).
Proof.
  intros Hs.
  assert (Nw : normal (PyStr.upper (PyStr.strip word))).
  { apply (word_symbol_normal text). rewrite Hs. right. now left. }
  split; [exact Nw|].
  intros x. unfold cmd_exclude. rewrite Hs.
  destruct (set_mem (PyStr.upper (PyStr.strip word)) (load_excluded store))
    eqn:Em; cbn [fst save_excluded].
  - apply set_mem_in in Em. split; [auto|]. intros [-> |H]; auto.
  - destruct (saved_exclusions_are_read_back_aux
                (PyStr.upper (PyStr.strip word) :: load_excluded store))
      as [_ H].
    + constructor; [exact Nw | apply load_excluded_normal].
    + rewrite H. cbn. intuition.
Qed.

(** X18.  A well-formed [/exclude WORD] whose file write succeeds: afterwards
    the symbol (the word stripped and in upper case) is in the set read from
    the file, together with everything that was in it before and nothing else;
    when the symbol was excluded already the file is left as it is.  An engine
    that starts afterwards (it reads the file at its second interaction)
    places no BUY for the symbol, for any number of turns. *)
Theorem exclude_command_takes_effect text cmd word store :
  split text = [cmd; word] ->
  (In (PyStr.upper (PyStr.strip word)) (load_excluded store) ->
   cmd_exclude true text store
   = (store, Some (AlreadyExcluded (PyStr.upper (PyStr.strip word))))) /\
  (~ In (PyStr.upper (PyStr.strip word)) (load_excluded store) ->
   snd (cmd_exclude true text store)
   = Some (NowExcluded (PyStr.upper (PyStr.strip word)))) /\
  (forall x,
      In x (load_excluded (fst (cmd_exclude true text store))) <->
      x = PyStr.upper (PyStr.strip word) \/ In x (load_excluded store)) /\
  (forall K P E dry_run poll_seconds max_cycles fuel t,
      E (S t) = fst (cmd_exclude true text store) ->
      placed BUY (PyStr.upper (PyStr.strip word))
        (events (run_trading_loop K (mk_files P E) dry_run poll_seconds
                   max_cycles fuel t)) = false).
Proof.
  intros Hs.
  assert (Nw : normal (PyStr.upper (PyStr.strip word))).
  { apply (word_symbol_normal text). rewrite Hs. right. now left. }
  assert (M : forall x,
             In x (load_excluded (fst (cmd_exclude true text store))) <->
             x = PyStr.upper (PyStr.strip word) \/ In x (load_excluded store)).
  { intros x. unfold cmd_exclude. rewrite Hs.
    destruct (set_mem (PyStr.upper (PyStr.strip word)) (load_excluded store))
      eqn:Em; cbn [fst save_excluded].
    - apply set_mem_in in Em. split; [auto|]. intros [-> |H]; auto.
    - destruct (saved_exclusions_are_read_back_aux
                  (PyStr.upper (PyStr.strip word) :: load_excluded store))
        as [_ H].
      + constructor; [exact Nw | apply load_excluded_normal].
      + rewrite H. cbn. intuition. }
  split; [|split; [|split]].
  - intros I. unfold cmd_exclude. rewrite Hs.
    now rewrite (proj2 (set_mem_in _ _) I).
  - intros I. unfold cmd_exclude. rewrite Hs.
    destruct (set_mem (PyStr.upper (PyStr.strip word)) (load_excluded store))
      eqn:Em; [apply set_mem_in in Em; contradiction | reflexivity].
  - exact M.
  - intros K P E dry_run poll_seconds max_cycles fuel t Et.
    apply run_never_buys_excluded. cbn [excluded_at]. rewrite Et.
    apply M. now left.
Qed.

Lemma exclude_command_takes_effect_witness :
  (In (PyStr.upper (PyStr.strip "tcs"))
      (load_excluded (FileObject (StocksItems [JStr "INFY"]))) ->
   cmd_exclude true "/exclude tcs" (FileObject (StocksItems [JStr "INFY"]))
   = (FileObject (StocksItems [JStr "INFY"]),
      Some (AlreadyExcluded (PyStr.upper (PyStr.strip "tcs"))))) /\
  (~ In (PyStr.upper (PyStr.strip "tcs"))
        (load_excluded (FileObject (StocksItems [JStr "INFY"]))) ->
   snd (cmd_exclude true "/exclude tcs" (FileObject (StocksItems [JStr "INFY"])))
   = Some (NowExcluded (PyStr.upper (PyStr.strip "tcs")))) /\
  (forall x,
      In x (load_excluded
              (fst (cmd_exclude true "/exclude tcs"
                      (FileObject (StocksItems [JStr "INFY"])))))
      <-> x = PyStr.upper (PyStr.strip "tcs") \/
          In x (load_excluded (FileObject (StocksItems [JStr "INFY"])))) /\
  (forall K P E dry_run poll_seconds max_cycles fuel t,
      E (S t) = fst (cmd_exclude true "/exclude tcs"
                       (FileObject (StocksItems [JStr "INFY"]))) ->
      placed BUY (PyStr.upper (PyStr.strip "tcs"))
        (events (run_trading_loop K (mk_files P E) dry_run poll_seconds
                   max_cycles fuel t)) = false).
Proof.
  apply (exclude_command_takes_effect "/exclude tcs" "/exclude" "tcs"
           (FileObject (StocksItems [JStr "INFY"]))).
  reflexivity.
Defined.

(** ** [/include] *)

Lemma in_set_remove s l x : In x (set_remove s l) <-> In x l /\ x <> s.
Proof.
  unfold set_remove. rewrite filter_In, negb_true_iff, String.eqb_neq. tauto.
Qed.

Lemma set_remove_normal s l : Forall normal l -> Forall normal (set_remove s l).
Proof.
  rewrite !Forall_forall. intros H x I. apply H. now apply in_set_remove in I.
Qed.

(** Two strictly increasing lists with the same members are equal. *)
Lemma sorted_ext l1 : forall l2,
  Sorted string_lt l1 -> Sorted string_lt l2 ->
  (forall x, In x l1 <-> In x l2) -> l1 = l2.
Proof.
  induction l1 as [|a r1 IH]; intros [|b r2] S1 S2 H.
  - reflexivity.
  - destruct (proj2 (H b) (or_introl eq_refl)).
  - destruct (proj1 (H a) (or_introl eq_refl)).
  - apply Sorted_StronglySorted in S1, S2; try exact string_lt_trans.
    inversion S1 as [|? ? T1 F1]; inversion S2 as [|? ? T2 F2]; subst.
    rewrite Forall_forall in F1, F2.
    assert (a = b) as ->.
    { destruct (proj1 (H a) (or_introl eq_refl)) as [E|Ia]; [now subst|].
      destruct (proj2 (H b) (or_introl eq_refl)) as [E|Ib]; [now subst|].
      exfalso. apply (string_lt_irrefl a).
      exact (string_lt_trans _ _ _ (F1 b Ib) (F2 a Ia)). }
    f_equal. apply IH; try now apply StronglySorted_Sorted.
    intros x. split; intros I.
    + destruct (proj1 (H x) (or_intror I)) as [E|I']; [|exact I'].
      subst. exfalso. exact (string_lt_irrefl _ (F1 _ I)).
    + destruct (proj2 (H x) (or_intror I)) as [E|I']; [|exact I'].
      subst. exfalso. exact (string_lt_irrefl _ (F2 _ I)).
Qed.

Lemma load_excluded_sorted store : Sorted string_lt (load_excluded store).
Proof.
  destruct store as [|e| |[|items|]]; try constructor.
  apply sorted_set_sorted.
Qed.

(** X19.  A well-formed [/include WORD] whose file write succeeds: when the
    symbol is not in the set read from the file, the file is left as it is;
    otherwise the set read from the file afterwards is the former one without
    the symbol.  Excluding a symbol that was not excluded and including it
    again gives back the set that was read before. *)
Theorem include_command_undoes_exclude text cmd word store :
  split text = [cmd; word] ->
  (~ In (PyStr.upper (PyStr.strip word)) (load_excluded store) ->
   cmd_include true text store
   = (store, Some (NotExcluded (PyStr.upper (PyStr.strip word))))) /\
  (In (PyStr.upper (PyStr.strip word)) (load_excluded store) ->
   snd (cmd_include true text store)
   = Some (NowIncluded (PyStr.upper (PyStr.strip word)))) /\
  (forall x,
      In x (load_excluded (fst (cmd_include true text store))) <->
      In x (load_excluded store) /\ x <> PyStr.upper (PyStr.strip word)) /\
  (forall text' cmd',
      split text' = [cmd'; word] ->
      ~ In (PyStr.upper (PyStr.strip word)) (load_excluded store) ->
      load_excluded
        (fst (cmd_include true text (fst (cmd_exclude true text' store))))
      = load_excluded store).
Proof.
  intros Hs.
  assert (M : forall st x,
             In x (load_excluded (fst (cmd_include true text st))) <->
             In x (load_excluded st) /\ x <> PyStr.upper (PyStr.strip word)).
  { intros st x. unfold cmd_include. rewrite Hs.
    destruct (set_mem (PyStr.upper (PyStr.strip word)) (load_excluded st))
      eqn:Em; cbn [negb fst save_excluded].
    - destruct (saved_exclusions_are_read_back_aux
                  (set_remove (PyStr.upper (PyStr.strip word))
                     (load_excluded st))) as [_ H].
      + apply set_remove_normal, load_excluded_normal.
      + rewrite H. apply in_set_remove.
    - split; [|tauto]. intros I. split; [exact I|]. intros ->.
      apply (proj2 (set_mem_in _ _)) in I. congruence. }
  split; [|split; [|split]].
  - intros I. unfold cmd_include. rewrite Hs.
    destruct (set_mem (PyStr.upper (PyStr.strip word)) (load_excluded store))
      eqn:Em; [apply set_mem_in in Em; contradiction | reflexivity].
  - intros I. unfold cmd_include. rewrite Hs.
    now rewrite (proj2 (set_mem_in _ _) I).
  - apply M.
  - intros text' cmd' Hs' N.
    apply sorted_ext; try apply load_excluded_sorted.
    intros x. rewrite M.
    destruct (exclude_command_effect_aux text' cmd' word store Hs') as [_ H].
    rewrite H. split.
    + intros [[-> |I] Nx]; [congruence | exact I].
    + intros I. split; [now right|]. intros ->. contradiction.
Qed.

Lemma include_command_undoes_exclude_witness :
  (~ In (PyStr.upper (PyStr.strip "tcs"))
        (load_excluded (FileObject (StocksItems [JStr "INFY"]))) ->
   cmd_include true "/include tcs" (FileObject (StocksItems [JStr "INFY"]))
   = (FileObject (StocksItems [JStr "INFY"]),
      Some (NotExcluded (PyStr.upper (PyStr.strip "tcs"))))) /\
  (In (PyStr.upper (PyStr.strip "tcs"))
      (load_excluded (FileObject (StocksItems [JStr "INFY"]))) ->
   snd (cmd_include true "/include tcs" (FileObject (StocksItems [JStr "INFY"])))
   = Some (NowIncluded (PyStr.upper (PyStr.strip "tcs")))) /\
  (forall x,
      In x (load_excluded
              (fst (cmd_include true "/include tcs"
                      (FileObject (StocksItems [JStr "INFY"])))))
      <-> In x (load_excluded (FileObject (StocksItems [JStr "INFY"]))) /\
          x <> PyStr.upper (PyStr.strip "tcs")) /\
  (forall text' cmd',
      split text' = [cmd'; "tcs"] ->
      ~ In (PyStr.upper (PyStr.strip "tcs"))
           (load_excluded (FileObject (StocksItems [JStr "INFY"]))) ->
      load_excluded
        (fst (cmd_include true "/include tcs"
                (fst (cmd_exclude true text'
                        (FileObject (StocksItems [JStr "INFY"]))))))
      = load_excluded (FileObject (StocksItems [JStr "INFY"]))).
Proof.
  apply (include_command_undoes_exclude "/include tcs" "/include" "tcs"
           (FileObject (StocksItems [JStr "INFY"]))).
  reflexivity.
Defined.


(** * The two passes and the book *)

(** X21.  The entry pass only adds to the book: a position that is open
    before the pass is still there, unchanged, after it.  The exit pass only
    removes: every position in the book after the pass was in it before, with
    the same quantity, price, target and stop. *)
Theorem passes_only_add_or_only_remove K dry_run syms excl now (b : book) w t :
  (exists b' w',
      result (entry_pass K dry_run syms excl (b, w) t) = Returned (b', w') /\
      forall s trade, dict_get s b = Some trade -> dict_get s b' = Some trade) /\
  (exists b',
      result (exit_pass K dry_run now b t) = Returned b' /\
      forall s trade, In (s, trade) b' -> In (s, trade) b).
Proof.
  split.
  - destruct (for_each_state_invariant _ _ (entry_step K dry_run excl)
                (fun st => forall s trade, dict_get s b = Some trade ->
                                           dict_get s (fst st) = Some trade)
                syms (fun x s t => entry_step_returns K dry_run excl x s t))
      with (l := syms) (s := (b, w)) (t := t) as [[b' w'] [E H]].
    + intros x [b0 w0] t0 [b1 w1] _ H0 E0 s trade Hs. cbn [fst] in *.
      destruct (entry_step_book_priced _ _ _ _ _ _ _ _ _ E0)
        as [[-> _]|[p [_ [_ [Hm [_ [_ [-> _]]]]]]]]; [auto|].
      rewrite dict_get_dict_set_other; [auto|].
      intros ->. specialize (H0 _ _ Hs). unfold dict_mem in Hm.
      rewrite H0 in Hm. discriminate.
    + apply incl_refl.
    + auto.
    + exists b', w'. split; [exact E | exact H].
  - destruct (for_each_state_invariant _ _ (exit_step K dry_run now)
                (fun b0 => forall s trade, In (s, trade) b0 -> In (s, trade) b)
                b (fun x s t => exit_step_returns K dry_run now x s t))
      with (l := b) (s := b) (t := t) as [b' [E H]].
    + intros [s0 trade0] b0 t0 b1 _ H0 E0 s trade I.
      destruct (exit_step_book _ _ _ _ _ _ _ _ E0) as [->| ->]; [auto|].
      apply H0. exact (in_dict_pop _ _ _ _ I).
    + apply incl_refl.
    + auto.
    + exists b'. split; [exact E | exact H].
Qed.
